(** * BirianyDibe: the post / vote synchronisation server

    A shallow embedding of [server.ts] (and of the earlier variant of the same
    server kept in the repository) together with the properties of the
    create-post, list-posts, cast-vote and create-report handlers.

    Modelling conventions.
    - The SQLite store is a record of four tables, each a list of rows in
      insertion order.  A TEXT column holds [option string]: [None] is SQL
      NULL, which is what a field that is absent (or null) in the JSON body
      binds to.  Identifiers are strings, as [types.ts] declares them.
    - SQL equality is three-valued: a comparison with NULL never holds, so
      NULL keys never conflict in a UNIQUE / PRIMARY KEY index of a TEXT
      column and never match in a join or a WHERE clause.
    - Timestamps ([CURRENT_TIMESTAMP], [new Date().toISOString()]) are
      integers; both text formats are fixed width, so the order of the
      integers is the order of the texts.
    - A handler is a function from the request, the environment of the
      request (clock readings, which statements throw, whether the database
      can be opened) and the server state to the new state, the response and
      the events emitted on the socket.  The handlers receive the parsed JSON
      object of the request. *)

From Stdlib Require Import ZArith List String Bool Lia Sorted Permutation.
From Stdlib Require QArith.
Import ListNotations.
Local Open Scope string_scope.
Local Open Scope Z_scope.
Local Open Scope list_scope.

(** ** SQL values *)

Definition text := option string.
Definition real := option QArith_base.Q.
Definition integer := option Z.

(** [a = b] in a WHERE / ON clause or a uniqueness check on TEXT values. *)
Definition sql_eq (a b : text) : bool :=
  match a, b with
  | Some x, Some y => String.eqb x y
  | _, _ => false
  end.

(** [col = k] for an INTEGER column and an integer literal. *)
Definition sql_eq_int (a : integer) (k : Z) : bool :=
  match a with
  | Some x => Z.eqb x k
  | None => false
  end.

(** ** The schema of [getDb] *)

Module Users.
Record row := mk
  { id : text; name : text; email : text; avatar : text }.
End Users.

Module Posts.
Record row := mk
  { id : text; user_id : text; place_name : text; description : text;
    lat : real; lng : real; distribution_time : text; created_at : Z }.
End Posts.

Module Votes.
Record row := mk
  { id : Z; post_id : text; user_id : text; vote_type : integer }.
End Votes.

Module Reports.
Record row := mk
  { id : Z; post_id : text; user_id : text; reason : text }.
End Reports.

(** The database file.  The two sequence counters are the AUTOINCREMENT
    counters of [votes] and [reports]. *)
Record database := mkDb
  { users : list Users.row;
    posts : list Posts.row;
    votes : list Votes.row;
    reports : list Reports.row;
    votes_seq : Z;
    reports_seq : Z }.

Definition empty_database : database := mkDb [] [] [] [] 0 0.

(** ** What the API sends: the [Post] record of [types.ts] *)

Module Post.
Record t := mk
  { id : text; user_id : text; user_name : text; place_name : text;
    description : text; lat : real; lng : real; distribution_time : text;
    created_at : Z; true_votes : Z; false_votes : Z }.
End Post.

(** The result of the statistics query of the vote handler. *)
Record stats := mkStats { true_votes : Z; false_votes : Z }.

(** ** Statements

    A statement either returns or throws. *)

Inductive outcome (A : Type) : Type :=
| Returned (a : A)
| Thrown.
Arguments Returned {A} a.
Arguments Thrown {A}.

(** [INSERT OR IGNORE INTO users (id, name) VALUES (?, ?)] *)
Definition insert_or_ignore_user (uid : text) (nm : string) (d : database)
  : database :=
  if existsb (fun u => sql_eq (Users.id u) uid) (users d)
  then d
  else mkDb (users d ++ [Users.mk uid (Some nm) None None])
            (posts d) (votes d) (reports d) (votes_seq d) (reports_seq d).

(** The body of a create-post request. *)
Record post_body := mkPostBody
  { b_id : text; b_user_id : text; b_place_name : text; b_description : text;
    b_lat : real; b_lng : real; b_distribution_time : text }.

(** [INSERT INTO posts (id, user_id, place_name, description, lat, lng,
    distribution_time) VALUES (...)]: [created_at] takes its default,
    CURRENT_TIMESTAMP; a second row with the same primary key is refused. *)
Definition insert_post (b : post_body) (current_timestamp : Z) (d : database)
  : outcome database :=
  if existsb (fun p => sql_eq (Posts.id p) (b_id b)) (posts d)
  then Thrown
  else Returned
         (mkDb (users d)
               (posts d ++ [Posts.mk (b_id b) (b_user_id b) (b_place_name b)
                              (b_description b) (b_lat b) (b_lng b)
                              (b_distribution_time b) current_timestamp])
               (votes d) (reports d) (votes_seq d) (reports_seq d)).

(** One result row of [SELECT p.*, u.name as user_name, tv as true_votes,
    fv as false_votes]. *)
Definition select_row (p : Posts.row) (user_name : text) (tv fv : Z) : Post.t :=
  Post.mk (Posts.id p) (Posts.user_id p) user_name (Posts.place_name p)
          (Posts.description p) (Posts.lat p) (Posts.lng p)
          (Posts.distribution_time p) (Posts.created_at p) tv fv.

(** [posts p LEFT JOIN users u ON p.user_id = u.id] for one post: a row per
    matching user, or a single row with a NULL name when none matches. *)
Definition left_join_users (us : list Users.row) (p : Posts.row) (tv fv : Z)
  : list Post.t :=
  match filter (fun u => sql_eq (Posts.user_id p) (Users.id u)) us with
  | [] => [select_row p None tv fv]
  | m => map (fun u => select_row p (Users.name u) tv fv) m
  end.

(** [SELECT COUNT( * ) FROM votes v WHERE v.post_id = ? AND v.vote_type = k] *)
Definition count_votes (vs : list Votes.row) (pid : text) (k : Z) : Z :=
  Z.of_nat
    (List.length
       (filter (fun v => sql_eq (Votes.post_id v) pid
                         && sql_eq_int (Votes.vote_type v) k) vs)).

(** [ORDER BY p.created_at DESC], as an insertion sort. *)
Fixpoint insert_desc (x : Post.t) (l : list Post.t) : list Post.t :=
  match l with
  | [] => [x]
  | y :: l' =>
      if Post.created_at y <=? Post.created_at x
      then x :: l
      else y :: insert_desc x l'
  end.

Definition order_by_created_at_desc (l : list Post.t) : list Post.t :=
  fold_right insert_desc [] l.

(** The query of the list-posts handler. *)
Definition select_posts (d : database) : list Post.t :=
  order_by_created_at_desc
    (flat_map
       (fun p => left_join_users (users d) p
                   (count_votes (votes d) (Posts.id p) 1)
                   (count_votes (votes d) (Posts.id p) 0))
       (posts d)).

(** The query that reads the created post back:
    [SELECT p.*, u.name as user_name, 0 as true_votes, 0 as false_votes
     FROM posts p LEFT JOIN users u ON p.user_id = u.id WHERE p.id = ?],
    of which [.get] keeps the first row. *)
Definition select_new_post (pid : text) (d : database) : option Post.t :=
  hd_error
    (flat_map (fun p => left_join_users (users d) p 0 0)
              (filter (fun p => sql_eq (Posts.id p) pid) (posts d))).

(** [INSERT INTO votes ... ON CONFLICT(post_id, user_id) DO UPDATE SET
    vote_type = excluded.vote_type]: the row that conflicts, when there is
    one, gets the new value.  The AUTOINCREMENT counter advances in both
    cases: the id prepared for the new row is used up also when the insert
    turns into an update. *)
Fixpoint update_conflicting (pid uid : text) (vt : integer)
  (vs : list Votes.row) : option (list Votes.row) :=
  match vs with
  | [] => None
  | v :: vs' =>
      if sql_eq (Votes.post_id v) pid && sql_eq (Votes.user_id v) uid
      then Some (Votes.mk (Votes.id v) (Votes.post_id v) (Votes.user_id v) vt
                   :: vs')
      else option_map (cons v) (update_conflicting pid uid vt vs')
  end.

Definition upsert_vote (pid uid : text) (vt : integer) (d : database)
  : database :=
  match update_conflicting pid uid vt (votes d) with
  | Some vs' =>
      mkDb (users d) (posts d) vs' (reports d) (votes_seq d + 1)
           (reports_seq d)
  | None =>
      mkDb (users d) (posts d)
           (votes d ++ [Votes.mk (votes_seq d + 1) pid uid vt])
           (reports d) (votes_seq d + 1) (reports_seq d)
  end.

(** The statistics query of the vote handler. *)
Definition select_stats (pid : text) (d : database) : stats :=
  mkStats (count_votes (votes d) pid 1) (count_votes (votes d) pid 0).

(** [INSERT INTO reports (post_id, user_id, reason) VALUES (?, ?, ?)] *)
Definition insert_report (pid uid reason : text) (d : database) : database :=
  mkDb (users d) (posts d) (votes d)
       (reports d ++ [Reports.mk (reports_seq d + 1) pid uid reason])
       (votes_seq d) (reports_seq d + 1).

(** ** The server *)

(** What [getDb] caches in the module variable [db]: the opened database, or
    the mock object it builds when opening fails, whose [run] does nothing,
    whose [get] returns null and whose [all] returns the empty array. *)
Inductive handle : Type :=
| RealDatabase
| MockDatabase.

(** The module-level state: the database file, the variables [db],
    [memoryPosts] and [ioInstance] (true when the socket server exists). *)
Record server := mkServer
  { disk : database;
    db : option handle;
    memoryPosts : list Post.t;
    ioInstance : bool }.

(** What one request meets: whether the database can be opened and its schema
    created, which of the statements of the handler (numbered from 0 in the
    order the handler runs them) throws, and the readings of the clock of
    the database and of [new Date()]. *)
Record env := mkEnv
  { open_ok : bool;
    throws : nat -> bool;
    current_timestamp : Z;
    date_now : Z }.

(** JSON sent to clients, in responses and on the socket. *)
Inductive json : Type :=
| JPosts (l : list Post.t)
| JPost (p : Post.t)
| JError (error : string) (details : option string)
| JVote (post_id : text) (st : option stats)
| JSuccess
| JUndefined.

Record response := mkResponse { status : Z; body : json }.

(** [ioInstance.emit(topic, payload)] *)
Definition event : Type := string * json.

Record result := mkResult
  { state : server; reply : response; emitted : list event }.

Definition with_disk (s : server) (d : database) : server :=
  mkServer d (db s) (memoryPosts s) (ioInstance s).

(** [if (ioInstance) ioInstance.emit(topic, payload)] *)
Definition emit (s : server) (topic : string) (payload : json) : list event :=
  if ioInstance s then [(topic, payload)] else [].

(** [!x] on a string field of the body. *)
Definition falsy (x : text) : bool :=
  match x with
  | None => true
  | Some EmptyString => true
  | Some _ => false
  end.

Definition getDb (e : env) (s : server) : server * handle :=
  match db s with
  | Some h => (s, h)
  | None =>
      let h := if open_ok e then RealDatabase else MockDatabase in
      (mkServer (disk s) (Some h) (memoryPosts s) (ioInstance s), h)
  end.

(** [app.get("/api/posts")] *)
Definition list_posts (e : env) (s : server) : result :=
  let (s1, h) := getDb e s in
  match h with
  | MockDatabase =>
      mkResult s1 (mkResponse 200 (JPosts ([] ++ memoryPosts s1))) []
  | RealDatabase =>
      if throws e 0%nat
      then mkResult s1 (mkResponse 200 (JPosts (memoryPosts s1))) []
      else mkResult s1
             (mkResponse 200
                (JPosts (select_posts (disk s1) ++ memoryPosts s1))) []
  end.

(** The inner [try] of the create-post handler: the state it leaves and the
    row read back, [None] when a statement threw or no row was read. *)
Definition try_db_first (e : env) (b : post_body) (h : handle) (s : server)
  : server * option Post.t :=
  match h with
  | MockDatabase => (s, None)
  | RealDatabase =>
      if throws e 0%nat then (s, None) else
      let d1 := insert_or_ignore_user (b_user_id b) "Anonymous User" (disk s) in
      if throws e 1%nat then (with_disk s d1, None) else
      match insert_post b (current_timestamp e) d1 with
      | Thrown => (with_disk s d1, None)
      | Returned d2 =>
          if throws e 2%nat then (with_disk s d2, None)
          else (with_disk s d2, select_new_post (b_id b) d2)
      end
  end.

(** The fallback object of the create-post handler. *)
Definition memPost (e : env) (b : post_body) : Post.t :=
  Post.mk (b_id b) (b_user_id b) (Some "Anonymous User") (b_place_name b)
          (b_description b) (b_lat b) (b_lng b) (b_distribution_time b)
          (date_now e) 0 0.

(** [memoryPosts.unshift(p)] *)
Definition unshift (p : Post.t) (s : server) : server :=
  mkServer (disk s) (db s) (p :: memoryPosts s) (ioInstance s).

(** [app.post("/api/posts")].  With an object for a body nothing outside the
    inner [try] throws, so the outer [catch] (status 500) is not entered. *)
Definition create_post (e : env) (b : post_body) (s : server) : result :=
  let (s1, h) := getDb e s in
  if falsy (b_place_name b)
  then mkResult s1
         (mkResponse 400 (JError "Place name is required" None)) []
  else
    match try_db_first e b h s1 with
    | (s2, Some newPost) =>
        mkResult s2 (mkResponse 201 (JPost newPost))
                 (emit s2 "post:created" (JPost newPost))
    | (s2, None) =>
        let s3 := unshift (memPost e b) s2 in
        mkResult s3 (mkResponse 201 (JPost (memPost e b)))
                 (emit s3 "post:created" (JPost (memPost e b)))
    end.

(** The body of a cast-vote request, with its [vote_type] as the statement
    binds it: NULL or an integer. *)
Record vote_body := mkVoteBody
  { vb_post_id : text; vb_user_id : text; vb_vote_type : integer }.

(** [app.post("/api/votes")].  With the mock database [stats] is null and
    [{ post_id, ...stats }] has the field [post_id] only. *)
Definition cast_vote (e : env) (b : vote_body) (s : server) : result :=
  let (s1, h) := getDb e s in
  let zero := JVote (vb_post_id b) (Some (mkStats 0 0)) in
  match h with
  | MockDatabase =>
      mkResult s1 (mkResponse 200 (JVote (vb_post_id b) None))
               (emit s1 "post:voted" (JVote (vb_post_id b) None))
  | RealDatabase =>
      if throws e 0%nat then mkResult s1 (mkResponse 200 zero) [] else
      let s2 :=
        with_disk s1
          (upsert_vote (vb_post_id b) (vb_user_id b) (vb_vote_type b) (disk s1))
      in
      if throws e 1%nat then mkResult s2 (mkResponse 200 zero) [] else
      let st := JVote (vb_post_id b)
                  (Some (select_stats (vb_post_id b) (disk s2))) in
      mkResult s2 (mkResponse 200 st) (emit s2 "post:voted" st)
  end.

(** The value of [vote_type] as the client sent it.  The handler passes
    [req.body.vote_type] to the statement unchecked; the values covered
    here are a field that is absent or null, an integer number, a string
    that is the decimal numeral of an integer (integers that SQLite holds
    as INTEGER), and a boolean. *)
Inductive vote_type_value : Type :=
| VAbsent
| VNumber (z : Z)
| VNumeral (z : Z)
| VBoolean (b : bool).

(** What [stmt.run] stores for it in the INTEGER column, or [Thrown]: null
    and undefined are bound as NULL and a number as itself; a numeral
    string is turned into its integer by the affinity of the column; a
    boolean is refused by the driver, whose [run] throws. *)
Definition stored_vote_type (v : vote_type_value) : outcome integer :=
  match v with
  | VAbsent => Returned None
  | VNumber z => Returned (Some z)
  | VNumeral z => Returned (Some z)
  | VBoolean _ => Thrown
  end.

(** [app.post("/api/votes")] on the body as the client sent it.  [run] of
    the mock ignores its arguments; on the real database a value that
    cannot be bound makes [run] throw, and the [catch] answers. *)
Definition cast_vote_raw (e : env) (pid uid : text) (v : vote_type_value)
  (s : server) : result :=
  match stored_vote_type v with
  | Returned vt => cast_vote e (mkVoteBody pid uid vt) s
  | Thrown =>
      let (s1, h) := getDb e s in
      match h with
      | MockDatabase =>
          mkResult s1 (mkResponse 200 (JVote pid None))
                   (emit s1 "post:voted" (JVote pid None))
      | RealDatabase =>
          mkResult s1 (mkResponse 200 (JVote pid (Some (mkStats 0 0)))) []
      end
  end.


(** The body of a create-report request. *)
Record report_body := mkReportBody
  { rb_post_id : text; rb_user_id : text; rb_reason : text }.

(** [app.post("/api/reports")] *)
Definition create_report (e : env) (b : report_body) (s : server) : result :=
  let (s1, h) := getDb e s in
  match h with
  | MockDatabase => mkResult s1 (mkResponse 201 JSuccess) []
  | RealDatabase =>
      if throws e 0%nat
      then mkResult s1 (mkResponse 500 (JError "Failed to report" None)) []
      else
        mkResult
          (with_disk s1
             (insert_report (rb_post_id b) (rb_user_id b) (rb_reason b)
                (disk s1)))
          (mkResponse 201 JSuccess) []
  end.

(** The two posts [memoryPosts] starts with.  Their timestamps are the
    readings of [new Date()] when the module is loaded: [dt] is the ISO text
    of the reading stored in [distribution_time], [t] the reading stored in
    [created_at]. *)
Definition sample_1 (dt : string) (t : Z) : Post.t :=
  Post.mk (Some "sample-1") (Some "system") (Some "এডমিন")
          (Some "ঢাকা বিশ্ববিদ্যালয় এলাকা")
          (Some "এখানে নিয়মিত রাতে বিরিয়ানি বিতরণ করা হয়।")
          (Some (QArith_base.Qmake 23733 1000))
          (Some (QArith_base.Qmake 90393 1000))
          (Some dt) t 15 1.

Definition sample_2 (dt : string) (t : Z) : Post.t :=
  Post.mk (Some "sample-2") (Some "system") (Some "এডমিন")
          (Some "মিরপুর ১০ গোলচত্বর")
          (Some "শুক্রবার জুমার পর এখানে খিচুড়ি পাওয়া যায়।")
          (Some (QArith_base.Qmake 23807 1000))
          (Some (QArith_base.Qmake 90368 1000))
          (Some dt) t 8 0.

(** The state after the module is loaded and [startServer] ran: the socket
    server exists unless NODE_ENV is "production"; the database is not open
    yet and the file holds what earlier runs left in it. *)
Definition loaded (production : bool) (d : database)
  (dt1 : string) (t1 : Z) (dt2 : string) (t2 : Z) : server :=
  mkServer d None [sample_1 dt1 t1; sample_2 dt2 t2] (negb production).

(** ** The earlier variant of the server

    It opens the database when the module is loaded, starts with an empty
    [memoryPosts], and its create-post handler has a single [try] whose
    [catch] is the memory fallback. *)
Module Earlier.

Record server := mkServer
  { disk : database; memoryPosts : list Post.t; ioInstance : bool }.

Record result := mkResult
  { state : server; reply : response; emitted : list event }.

Definition emit (s : server) (topic : string) (payload : json)
  : list event :=
  if ioInstance s then [(topic, payload)] else [].

Definition with_disk (s : server) (d : database) : server :=
  mkServer d (memoryPosts s) (ioInstance s).

(** [res.status(201).json(newPost)], where [newPost] is undefined when the
    query found no row. *)
Definition json_of (p : option Post.t) : json :=
  match p with
  | Some x => JPost x
  | None => JUndefined
  end.

(** The [try] block up to the query: the state it leaves, and the row read
    back, or [Thrown]. *)
Definition try_db (e : env) (b : post_body) (s : server)
  : server * outcome (option Post.t) :=
  if throws e 0%nat then (s, Thrown) else
  let d1 := insert_or_ignore_user (b_user_id b) "Anonymous User" (disk s) in
  if throws e 1%nat then (with_disk s d1, Thrown) else
  match insert_post b (current_timestamp e) d1 with
  | Thrown => (with_disk s d1, Thrown)
  | Returned d2 =>
      if throws e 2%nat then (with_disk s d2, Thrown)
      else (with_disk s d2, Returned (select_new_post (b_id b) d2))
  end.

(** [app.post("/api/posts")] of the earlier variant. *)
Definition create_post (e : env) (b : post_body) (s : server) : result :=
  match try_db e b s with
  | (s1, Returned newPost) =>
      mkResult s1 (mkResponse 201 (json_of newPost))
               (emit s1 "post:created" (json_of newPost))
  | (s1, Thrown) =>
      let s2 := mkServer (disk s1) (memPost e b :: memoryPosts s1)
                         (ioInstance s1) in
      mkResult s2 (mkResponse 201 (JPost (memPost e b)))
               (emit s2 "post:created" (JPost (memPost e b)))
  end.

Definition loaded (production : bool) (d : database) : server :=
  mkServer d [] (negb production).

End Earlier.

(** ** Requests and runs of the server *)

Inductive request : Type :=
| ListPosts
| CreatePost (b : post_body)
| CastVote (b : vote_body)
| CreateReport (b : report_body).

Definition serve (e : env) (rq : request) (s : server) : result :=
  match rq with
  | ListPosts => list_posts e s
  | CreatePost b => create_post e b s
  | CastVote b => cast_vote e b s
  | CreateReport b => create_report e b s
  end.

(** The state after a sequence of requests, each with its environment. *)
Fixpoint run (tr : list (env * request)) (s : server) : server :=
  match tr with
  | [] => s
  | (e, rq) :: tr' => run tr' (state (serve e rq s))
  end.

(** ** Vocabulary of the properties *)

(** The request is served by the real database. *)
Definition uses_real (e : env) (s : server) : bool :=
  match snd (getDb e s) with
  | RealDatabase => true
  | MockDatabase => false
  end.

(** No statement of the request throws. *)
Definition healthy (e : env) : Prop := forall n, throws e n = false.

(** The constraint [UNIQUE(post_id, user_id)] of the [votes] table. *)
Definition same_vote_key (v w : Votes.row) : bool :=
  sql_eq (Votes.post_id v) (Votes.post_id w)
  && sql_eq (Votes.user_id v) (Votes.user_id w).

Fixpoint votes_unique (vs : list Votes.row) : bool :=
  match vs with
  | [] => true
  | v :: vs' => negb (existsb (same_vote_key v) vs') && votes_unique vs'
  end.

(** The constraint [id TEXT PRIMARY KEY] of the [users] table. *)
Fixpoint users_unique (us : list Users.row) : bool :=
  match us with
  | [] => true
  | u :: us' =>
      negb (existsb (fun w => sql_eq (Users.id u) (Users.id w)) us')
      && users_unique us'
  end.

(** The vote row of user [u] on post [p]. *)
Definition vote_of (p u : string) (v : Votes.row) : bool :=
  sql_eq (Votes.post_id v) (Some p) && sql_eq (Votes.user_id v) (Some u).

(** The number of vote rows on post [p] with value [k] that are not the row
    of user [u]. *)
Definition others_count (vs : list Votes.row) (p u : string) (k : Z) : Z :=
  Z.of_nat
    (List.length
       (filter (fun v => (sql_eq (Votes.post_id v) (Some p)
                          && sql_eq_int (Votes.vote_type v) k)
                         && negb (vote_of p u v)) vs)).


(** No user other than [u] has a vote row on post [p]. *)
Definition only_voter (vs : list Votes.row) (p u : string) : bool :=
  negb (existsb (fun v => sql_eq (Votes.post_id v) (Some p)
                          && negb (vote_of p u v)) vs).

(** What a vote of value [vt] adds to the count of the votes of value [k]. *)
Definition counts_as (vt : integer) (k : Z) : Z :=
  if sql_eq_int vt k then 1 else 0.

(** Newest first by creation timestamp. *)
Definition newer_or_same (a b : Post.t) : Prop :=
  Post.created_at b <= Post.created_at a.

Definition newest_first (l : list Post.t) : Prop := Sorted newer_or_same l.

(** The clock of [new Date()] does not run backwards along a run that
    starts at reading [c]. *)
Fixpoint clock_ok (c : Z) (tr : list (env * request)) : Prop :=
  match tr with
  | [] => True
  | (e, _) :: tr' => c <= date_now e /\ clock_ok (date_now e) tr'
  end.

(** The row of the [posts] table a result row of a query comes from. *)
Definition row_of (x : Post.t) : Posts.row :=
  Posts.mk (Post.id x) (Post.user_id x) (Post.place_name x)
           (Post.description x) (Post.lat x) (Post.lng x)
           (Post.distribution_time x) (Post.created_at x).

(** The tallies of a record are the counts of the vote rows in [vs]. *)
Definition tallies_counted (vs : list Votes.row) (x : Post.t) : Prop :=
  Post.true_votes x = count_votes vs (Post.id x) 1
  /\ Post.false_votes x = count_votes vs (Post.id x) 0.

(** The response is an error response. *)
Definition is_error (r : response) : bool := 400 <=? status r.

(** ** Sample data for the examples *)

Definition quiet : env := mkEnv true (fun _ => false) 100 100.
Definition failing : env := mkEnv true (fun _ => true) 100 100.

Definition vote (p u : string) (k : Z) : vote_body :=
  mkVoteBody (Some p) (Some u) (Some k).

Definition test_mosque : post_body :=
  mkPostBody (Some "post_1") (Some "user_1") (Some "Test Mosque")
             (Some "biriyani") (Some (QArith_base.Qmake 237 10))
             (Some (QArith_base.Qmake 904 10)) (Some "2026-03-01T18:00").

Definition no_place_name : post_body :=
  mkPostBody (Some "post_2") (Some "user_1") None
             (Some "biriyani") (Some (QArith_base.Qmake 237 10))
             (Some (QArith_base.Qmake 904 10)) (Some "2026-03-01T18:00").

Definition fresh (production : bool) : server :=
  loaded production empty_database
         "2026-03-01T00:00:00.000Z" 0 "2026-03-01T00:00:00.000Z" 0.

Definition no_user_id : post_body :=
  mkPostBody (Some "post_4") None (Some "Test Mosque")
             (Some "biriyani") (Some (QArith_base.Qmake 237 10))
             (Some (QArith_base.Qmake 904 10)) (Some "2026-03-01T18:00").

(** A fresh deployment whose module was loaded while the clock ticked
    between the two samples. *)
Definition ticked : server :=
  loaded false empty_database
         "2026-03-01T00:00:00.005Z" 5 "2026-03-01T00:00:00.006Z" 6.

(** Two posts created while the database throws, then one stored post. *)
Definition busy_evening : list (env * request) :=
  [ (mkEnv true (fun _ => true) 10 10, CreatePost test_mosque);
    (mkEnv true (fun _ => true) 20 20, CreatePost test_mosque);
    (mkEnv true (fun _ => false) 30 30, CreatePost test_mosque) ].

(** ** The other handlers of the earlier variant

    They use the database opened when the module is loaded; the report
    handler has no [try], so a statement that throws leaves it through the
    exception. *)
Module EarlierRoutes.

(** [app.get("/api/posts")] *)
Definition list_posts (e : env) (s : Earlier.server) : Earlier.result :=
  if throws e 0%nat
  then Earlier.mkResult s (mkResponse 200 (JPosts (Earlier.memoryPosts s))) []
  else Earlier.mkResult s
         (mkResponse 200
            (JPosts (select_posts (Earlier.disk s) ++ Earlier.memoryPosts s)))
         [].

(** [app.post("/api/votes")] *)
Definition cast_vote (e : env) (b : vote_body) (s : Earlier.server)
  : Earlier.result :=
  let zero := JVote (vb_post_id b) (Some (mkStats 0 0)) in
  if throws e 0%nat then Earlier.mkResult s (mkResponse 200 zero) [] else
  let s2 :=
    Earlier.with_disk s
      (upsert_vote (vb_post_id b) (vb_user_id b) (vb_vote_type b)
         (Earlier.disk s))
  in
  if throws e 1%nat then Earlier.mkResult s2 (mkResponse 200 zero) [] else
  let st := JVote (vb_post_id b)
              (Some (select_stats (vb_post_id b) (Earlier.disk s2))) in
  Earlier.mkResult s2 (mkResponse 200 st) (Earlier.emit s2 "post:voted" st).

(** [app.post("/api/reports")]: [Thrown] when the insert throws. *)
Definition create_report (e : env) (b : report_body) (s : Earlier.server)
  : outcome Earlier.result :=
  if throws e 0%nat then Thrown
  else Returned
         (Earlier.mkResult
            (Earlier.with_disk s
               (insert_report (rb_post_id b) (rb_user_id b) (rb_reason b)
                  (Earlier.disk s)))
            (mkResponse 201 JSuccess) []).

End EarlierRoutes.

(** The state of the earlier variant that holds the same data. *)
Definition earlier_view (s : server) : Earlier.server :=
  Earlier.mkServer (disk s) (memoryPosts s) (ioInstance s).

(** ** [startServer] and its callers

    Objects ([express()], [createServer(app)], [new Server(httpServer)]) are
    numbered in the order they are created; what the code does to them is
    recorded as a list of effects. *)
Module Startup.

Inductive effect : Type :=
| Express (app : nat)
| CreateServer (httpServer app : nat)
| NewIo (io httpServer : nat)
| Use (app : nat) (middleware : string)
| Route (app : nat) (method path : string)
| CreateViteServer
| Listen (httpServer : nat) (port : Z)
| OnConnection (io : nat)
| Dispatch (app : nat) (req : nat).

(** The module variables [appInstance], [httpServerInstance], [ioInstance]
    (all null at first) and the number of objects created so far. *)
Record globals := mkGlobals
  { appInstance : option nat;
    httpServerInstance : option nat;
    ioInstance : option nat;
    created : nat }.

Definition initial : globals := mkGlobals None None None 0.

(** What [startServer] returns: [{ app, httpServer, io }] from the cache,
    [{ app, httpServer }] (no [io] field) from the first call. *)
Record started := mkStarted
  { app : nat; httpServer : option nat; io : option (option nat) }.

Definition startServer (production : bool) (g : globals)
  : globals * started * list effect :=
  match appInstance g with
  | Some a =>
      (g, mkStarted a (httpServerInstance g) (Some (ioInstance g)), [])
  | None =>
      let a := created g in
      let h := S a in
      let i := S h in
      (mkGlobals (Some a) (Some h) (if production then None else Some i)
                 (if production then S h else S i),
       mkStarted a (Some h) None,
       [Express a; CreateServer h a]
       ++ (if production then [] else [NewIo i h])
       ++ [Use a "express.json";
           Route a "GET" "/api/posts"; Route a "POST" "/api/posts";
           Route a "POST" "/api/votes"; Route a "POST" "/api/reports"]
       ++ (if production
           then [Use a "express.static"; Route a "GET" "*"]
           else [CreateViteServer; Use a "vite.middlewares"])
       ++ [Listen h 3000]
       ++ (if production then [] else [OnConnection i]))
  end.

(** The last lines of [server.ts], run when the module is loaded. *)
Definition load (production : bool) (g : globals) : globals * list effect :=
  if production then (g, [])
  else
    let '(g', st, fx) := startServer production g in
    (g', fx ++ match httpServer st with
               | Some h => [Listen h 3000]
               | None => []
               end).

(** The handler of the entry file that calls [startServer] on every
    request. *)
Definition api_plain (production : bool) (req : nat) (g : globals)
  : globals * list effect :=
  let '(g', st, fx) := startServer production g in
  (g', fx ++ [Dispatch (app st) req]).

(** The handler exported by [api/index.ts], which keeps the app in its own
    variable [cachedApp]. *)
Definition api_cached (production : bool) (req : nat)
  (cachedApp : option nat) (g : globals)
  : option nat * globals * list effect :=
  match cachedApp with
  | Some a => (cachedApp, g, [Dispatch a req])
  | None =>
      let '(g', st, fx) := startServer production g in
      (Some (app st), g', fx ++ [Dispatch (app st) req])
  end.

(** A sequence of requests through each of the two handlers. *)
Fixpoint serve_plain (production : bool) (reqs : list nat) (g : globals)
  : globals * list effect :=
  match reqs with
  | [] => (g, [])
  | r :: reqs' =>
      let (g1, fx1) := api_plain production r g in
      let (g2, fx2) := serve_plain production reqs' g1 in
      (g2, fx1 ++ fx2)
  end.

Fixpoint serve_cached (production : bool) (reqs : list nat)
  (cachedApp : option nat) (g : globals) : globals * list effect :=
  match reqs with
  | [] => (g, [])
  | r :: reqs' =>
      let '(c1, g1, fx1) := api_cached production r cachedApp g in
      let (g2, fx2) := serve_cached production reqs' c1 g1 in
      (g2, fx1 ++ fx2)
  end.

Definition is_listen (x : effect) : bool :=
  match x with
  | Listen _ _ => true
  | _ => false
  end.

Definition is_express (x : effect) : bool :=
  match x with
  | Express _ => true
  | _ => false
  end.

End Startup.

(** ** The client ([App.tsx])

    The three updates of the list of posts the page keeps: the two socket
    handlers and the optimistic update of [handleVote]. *)
Module Client.

Record VoteUpdate := mkVoteUpdate
  { post_id : string; true_votes : Z; false_votes : Z }.

(** [p.id === postId] for a string [postId]. *)
Definition id_is (p : Post.t) (postId : string) : bool :=
  match Post.id p with
  | Some x => String.eqb x postId
  | None => false
  end.

(** [{ ...p, true_votes: t, false_votes: f }] *)
Definition with_votes (p : Post.t) (t f : Z) : Post.t :=
  Post.mk (Post.id p) (Post.user_id p) (Post.user_name p) (Post.place_name p)
          (Post.description p) (Post.lat p) (Post.lng p)
          (Post.distribution_time p) (Post.created_at p) t f.

(** [socket.on('post:created', ...)] *)
Definition on_post_created (newPost : Post.t) (prev : list Post.t)
  : list Post.t :=
  newPost :: prev.

(** [socket.on('post:voted', ...)] *)
Definition on_post_voted (update : VoteUpdate) (prev : list Post.t)
  : list Post.t :=
  map (fun p => if id_is p (post_id update)
                then with_votes p (true_votes update) (false_votes update)
                else p) prev.

(** The optimistic update of [handleVote(postId, type)]. *)
Definition handleVote (postId : string) (type : Z) (prev : list Post.t)
  : list Post.t :=
  map (fun p => if id_is p postId
                then
                  let isTrue := type =? 1 in
                  with_votes p
                    (if isTrue then Post.true_votes p + 1
                     else Post.true_votes p)
                    (if negb isTrue then Post.false_votes p + 1
                     else Post.false_votes p)
                else p) prev.

End Client.

(** The [VoteUpdate] a [post:voted] payload is, when it has the three
    fields. *)
Definition vote_update (payload : json) : option Client.VoteUpdate :=
  match payload with
  | JVote (Some p) (Some st) =>
      Some (Client.mkVoteUpdate p (true_votes st) (false_votes st))
  | _ => None
  end.

(** ** More vocabulary *)

(** The constraint [id TEXT PRIMARY KEY] of the [posts] table. *)
Fixpoint posts_unique (ps : list Posts.row) : bool :=
  match ps with
  | [] => true
  | p :: ps' =>
      negb (existsb (fun q => sql_eq (Posts.id p) (Posts.id q)) ps')
      && posts_unique ps'
  end.

(** AUTOINCREMENT: the ids of the vote rows are distinct and none is above
    the counter; the same for the reports. *)
Definition vote_ids_ok (d : database) : Prop :=
  Forall (fun v => Votes.id v <= votes_seq d) (votes d)
  /\ NoDup (map Votes.id (votes d)).

Definition report_ids_ok (d : database) : Prop :=
  Forall (fun r => Reports.id r <= reports_seq d) (reports d)
  /\ NoDup (map Reports.id (reports d)).

(** The constraints of the schema together. *)
Definition constraints (d : database) : Prop :=
  users_unique (users d) = true
  /\ posts_unique (posts d) = true
  /\ votes_unique (votes d) = true
  /\ vote_ids_ok d
  /\ report_ids_ok d.

(** What identifies a vote row: everything but the value of the vote. *)
Definition vote_key (v : Votes.row) : Z * text * text :=
  (Votes.id v, Votes.post_id v, Votes.user_id v).

(** What one request can do to the database file: nothing, the insert of a
    user, the insert of a user and then of a post, the upsert of a vote, or
    the insert of a report. *)
Inductive db_step (d : database) : database -> Prop :=
| step_none : db_step d d
| step_user (uid : text) (nm : string) :
    db_step d (insert_or_ignore_user uid nm d)
| step_post (b : post_body) (ts : Z) (uid : text) (nm : string)
    (d2 : database) :
    insert_post b ts (insert_or_ignore_user uid nm d) = Returned d2 ->
    db_step d d2
| step_vote (pid uid : text) (vt : integer) :
    db_step d (upsert_vote pid uid vt d)
| step_report (pid uid reason : text) :
    db_step d (insert_report pid uid reason d).

(** The tables of [d'] are those of [d] with rows added at the end; vote
    rows may differ in the value of the vote only. *)
Definition grows (d d' : database) : Prop :=
  (exists more, users d' = users d ++ more)
  /\ (exists more, posts d' = posts d ++ more)
  /\ (exists more, map vote_key (votes d') = map vote_key (votes d) ++ more)
  /\ (exists more, reports d' = reports d ++ more).

(** The earlier variant answered as the server does: the same reply, the
    same events, the same data afterwards. *)
Definition agrees (r' : Earlier.result) (r : result) : Prop :=
  Earlier.reply r' = reply r
  /\ Earlier.emitted r' = emitted r
  /\ Earlier.state r' = earlier_view (state r).

(** Two records of the same post, tallies aside. *)
Definition same_post (x y : Post.t) : Prop :=
  row_of x = row_of y /\ Post.user_name x = Post.user_name y.

(** The posts of a reply. *)
Definition listed (r : response) : list Post.t :=
  match body r with
  | JPosts l => l
  | _ => []
  end.

(** * Properties *)

(** ** SQL equality *)

Lemma sql_eq_some (a : text) (x : string) :
  sql_eq a (Some x) = true -> a = Some x.
Proof.
  destruct a as [y|]; simpl; [|discriminate].
  intros H. apply String.eqb_eq in H. now subst.
Qed.

Lemma sql_eq_refl (x : string) : sql_eq (Some x) (Some x) = true.
Proof. apply String.eqb_refl. Qed.

Lemma sql_eq_sym (a b : text) : sql_eq a b = sql_eq b a.
Proof.
  destruct a, b; simpl; auto using String.eqb_sym.
Qed.

Lemma filter_andb {A : Type} (f g : A -> bool) (l : list A) :
  filter (fun x => f x && g x) l = filter g (filter f l).
Proof.
  induction l as [|x l IH]; simpl; [reflexivity|].
  destruct (f x); simpl; [destruct (g x)|]; now rewrite IH.
Qed.

Lemma filter_none {A : Type} (f : A -> bool) (l : list A) :
  existsb f l = false -> filter f l = [].
Proof.
  induction l as [|x l IH]; simpl; [reflexivity|].
  destruct (f x); simpl; [discriminate|exact IH].
Qed.

Lemma existsb_pointwise {A : Type} (f g : A -> bool) (l : list A) :
  (forall x, f x = g x) -> existsb f l = existsb g l.
Proof.
  intros E. induction l as [|x l IH]; simpl; [reflexivity|].
  now rewrite E, IH.
Qed.

(** ** The [votes] table under the upsert *)

Section Upsert.

Variables (p u : string) (vt : integer).

Lemma vote_of_same_key (v w : Votes.row) :
  vote_of p u v = true -> same_vote_key v w = vote_of p u w.
Proof.
  unfold vote_of, same_vote_key. intros H.
  apply andb_true_iff in H as [Hp Hu].
  apply sql_eq_some in Hp, Hu. rewrite Hp, Hu.
  now rewrite (sql_eq_sym (Some p)), (sql_eq_sym (Some u)).
Qed.

Lemma update_conflicting_none (pid uid : text) (vs : list Votes.row) :
  update_conflicting pid uid vt vs = None <->
  existsb (fun v => sql_eq (Votes.post_id v) pid
                    && sql_eq (Votes.user_id v) uid) vs = false.
Proof.
  induction vs as [|v vs IH]; simpl; [tauto|].
  destruct (sql_eq (Votes.post_id v) pid && sql_eq (Votes.user_id v) uid);
    simpl.
  - split; discriminate.
  - rewrite <- IH. destruct (update_conflicting pid uid vt vs); simpl;
      split; congruence.
Qed.

(** The rows of the other users, and of the other posts, are untouched. *)
Lemma update_conflicting_others (f : Votes.row -> bool)
  (vs vs' : list Votes.row) :
  (forall v, vote_of p u v = true -> f v = false) ->
  update_conflicting (Some p) (Some u) vt vs = Some vs' ->
  filter f vs' = filter f vs.
Proof.
  intros Hf. revert vs'.
  induction vs as [|v vs IH]; simpl; intros vs' H; [discriminate|].
  fold (vote_of p u v) in H.
  destruct (vote_of p u v) eqn:Hv.
  - injection H as <-. simpl.
    rewrite (Hf v Hv), (Hf (Votes.mk _ _ _ vt)); [reflexivity|].
    exact Hv.
  - destruct (update_conflicting (Some p) (Some u) vt vs) as [ws|];
      [|discriminate].
    injection H as <-. simpl. now rewrite (IH ws eq_refl).
Qed.

(** Under the uniqueness constraint the updated table has one row of
    user [u] on post [p], and it holds the new value. *)
Lemma update_conflicting_mine (vs vs' : list Votes.row) :
  votes_unique vs = true ->
  update_conflicting (Some p) (Some u) vt vs = Some vs' ->
  exists i, filter (vote_of p u) vs' = [Votes.mk i (Some p) (Some u) vt].
Proof.
  revert vs'.
  induction vs as [|v vs IH]; simpl; intros vs' Hu H; [discriminate|].
  apply andb_true_iff in Hu as [Hfresh Hu].
  fold (vote_of p u v) in H.
  destruct (vote_of p u v) eqn:Hv.
  - injection H as <-. exists (Votes.id v).
    assert (E : filter (vote_of p u) vs = []).
    { apply filter_none. apply negb_true_iff in Hfresh.
      rewrite <- Hfresh. apply existsb_pointwise. intros w.
      symmetry. now apply vote_of_same_key. }
    unfold vote_of in Hv.
    apply andb_true_iff in Hv as [Hp Hq].
    apply sql_eq_some in Hp, Hq. rewrite Hp, Hq.
    change (filter (vote_of p u) (?x :: vs))
      with (if vote_of p u x then x :: filter (vote_of p u) vs
            else filter (vote_of p u) vs).
    rewrite E. unfold vote_of. simpl. now rewrite !String.eqb_refl.
  - destruct (update_conflicting (Some p) (Some u) vt vs) as [ws|];
      [|discriminate].
    injection H as <-. simpl. rewrite Hv. now apply IH.
Qed.

Lemma upsert_vote_mine (d : database) :
  votes_unique (votes d) = true ->
  exists i,
    filter (vote_of p u) (votes (upsert_vote (Some p) (Some u) vt d))
    = [Votes.mk i (Some p) (Some u) vt].
Proof.
  intros Hu. unfold upsert_vote.
  destruct (update_conflicting (Some p) (Some u) vt (votes d)) as [vs'|]
    eqn:E; simpl.
  - now apply update_conflicting_mine with (vs := votes d).
  - apply update_conflicting_none in E.
    assert (E' : filter (vote_of p u) (votes d) = [])
      by (apply filter_none; exact E).
    exists (votes_seq d + 1). rewrite filter_app, E'.
    simpl. unfold vote_of. simpl. now rewrite !String.eqb_refl.
Qed.

Lemma upsert_vote_others (f : Votes.row -> bool) (d : database) :
  (forall v, vote_of p u v = true -> f v = false) ->
  filter f (votes (upsert_vote (Some p) (Some u) vt d))
  = filter f (votes d).
Proof.
  intros Hf. unfold upsert_vote.
  destruct (update_conflicting (Some p) (Some u) vt (votes d)) as [vs'|]
    eqn:E; simpl.
  - now apply update_conflicting_others.
  - rewrite filter_app. simpl.
    rewrite (Hf (Votes.mk _ (Some p) (Some u) vt)).
    + apply app_nil_r.
    + unfold vote_of. simpl. now rewrite !String.eqb_refl.
Qed.

Lemma upsert_vote_others_count (d : database) (k : Z) :
  others_count (votes (upsert_vote (Some p) (Some u) vt d)) p u k
  = others_count (votes d) p u k.
Proof.
  unfold others_count. rewrite upsert_vote_others; [reflexivity|].
  intros v Hv. rewrite Hv. apply andb_false_r.
Qed.

End Upsert.

Lemma count_votes_split (vs : list Votes.row) (p u : string) (k : Z) :
  count_votes vs (Some p) k
  = others_count vs p u k
    + Z.of_nat
        (List.length
           (filter (fun v => sql_eq_int (Votes.vote_type v) k)
                   (filter (vote_of p u) vs))).
Proof.
  unfold count_votes, others_count, vote_of.
  rewrite <- Nat2Z.inj_add. f_equal.
  induction vs as [|v vs IH]; simpl; [reflexivity|].
  destruct (sql_eq (Votes.post_id v) (Some p)),
           (sql_eq (Votes.user_id v) (Some u)); simpl;
    destruct (sql_eq_int (Votes.vote_type v) k); simpl; lia.
Qed.

(** The count the statistics query reads after the upsert. *)
Lemma count_after_upsert (p u : string) (vt : integer) (d : database) (k : Z) :
  votes_unique (votes d) = true ->
  count_votes (votes (upsert_vote (Some p) (Some u) vt d)) (Some p) k
  = others_count (votes d) p u k + counts_as vt k.
Proof.
  intros Hu. rewrite (count_votes_split _ p u), upsert_vote_others_count.
  destruct (upsert_vote_mine p u vt d Hu) as [i ->].
  unfold counts_as. simpl. now destruct (sql_eq_int vt k).
Qed.

Lemma update_conflicting_keys (pid uid : text) (vt : integer)
  (w : Votes.row) (vs vs' : list Votes.row) :
  update_conflicting pid uid vt vs = Some vs' ->
  existsb (same_vote_key w) vs' = existsb (same_vote_key w) vs.
Proof.
  revert vs'. induction vs as [|v vs IH]; simpl; intros vs' H;
    [discriminate|].
  destruct (sql_eq (Votes.post_id v) pid && sql_eq (Votes.user_id v) uid).
  - now injection H as <-.
  - destruct (update_conflicting pid uid vt vs) as [ws|]; [|discriminate].
    injection H as <-. simpl. now rewrite (IH ws eq_refl).
Qed.

Lemma update_conflicting_unique (pid uid : text) (vt : integer)
  (vs vs' : list Votes.row) :
  votes_unique vs = true ->
  update_conflicting pid uid vt vs = Some vs' ->
  votes_unique vs' = true.
Proof.
  revert vs'. induction vs as [|v vs IH]; simpl; intros vs' Hu H;
    [discriminate|].
  apply andb_true_iff in Hu as [Hfresh Hu].
  destruct (sql_eq (Votes.post_id v) pid && sql_eq (Votes.user_id v) uid).
  - injection H as <-. simpl. apply andb_true_iff. now split.
  - destruct (update_conflicting pid uid vt vs) as [ws|] eqn:E;
      [|discriminate].
    injection H as <-. simpl.
    rewrite (update_conflicting_keys _ _ _ v _ _ E), Hfresh. simpl.
    now apply IH.
Qed.

Lemma votes_unique_snoc (vs : list Votes.row) (w : Votes.row) :
  votes_unique vs = true ->
  existsb (fun v => same_vote_key v w) vs = false ->
  votes_unique (vs ++ [w]) = true.
Proof.
  induction vs as [|v vs IH]; simpl; intros Hu Hw; [reflexivity|].
  apply andb_true_iff in Hu as [Hfresh Hu].
  apply orb_false_iff in Hw as [Hv Hw].
  rewrite existsb_app. simpl. rewrite Hv, orb_false_r, Hfresh. simpl.
  now apply IH.
Qed.

(** The upsert keeps the uniqueness constraint of the table. *)
Lemma upsert_vote_unique (pid uid : text) (vt : integer) (d : database) :
  votes_unique (votes d) = true ->
  votes_unique (votes (upsert_vote pid uid vt d)) = true.
Proof.
  intros Hu. unfold upsert_vote.
  destruct (update_conflicting pid uid vt (votes d)) as [vs'|] eqn:E; simpl.
  - now apply update_conflicting_unique with (1 := Hu) (2 := E).
  - apply votes_unique_snoc; [exact Hu|].
    now apply update_conflicting_none in E.
Qed.

(** ** The handlers, case by case *)

Lemma getDb_frame (e : env) (s : server) :
  disk (fst (getDb e s)) = disk s
  /\ memoryPosts (fst (getDb e s)) = memoryPosts s
  /\ ioInstance (fst (getDb e s)) = ioInstance s
  /\ db (fst (getDb e s)) = Some (snd (getDb e s)).
Proof.
  unfold getDb. destruct (db s) as [h|] eqn:E; simpl; auto.
Qed.

Ltac open_db e s :=
  unfold uses_real, getDb in *;
  destruct (db s) as [[|]|] eqn:?; [| |destruct (open_ok e) eqn:?];
  simpl in *; try discriminate.

(** A vote on the real database when no statement throws. *)
Lemma cast_vote_healthy (e : env) (b : vote_body) (s : server) :
  uses_real e s = true -> healthy e ->
  let d := upsert_vote (vb_post_id b) (vb_user_id b) (vb_vote_type b) (disk s)
  in
  let st := JVote (vb_post_id b) (Some (select_stats (vb_post_id b) d)) in
  disk (state (cast_vote e b s)) = d
  /\ db (state (cast_vote e b s)) = Some RealDatabase
  /\ memoryPosts (state (cast_vote e b s)) = memoryPosts s
  /\ ioInstance (state (cast_vote e b s)) = ioInstance s
  /\ reply (cast_vote e b s) = mkResponse 200 st
  /\ emitted (cast_vote e b s)
     = if ioInstance s then [("post:voted", st)] else [].
Proof.
  intros Hr Hh. unfold cast_vote.
  open_db e s; rewrite !Hh; simpl; unfold emit; simpl; auto 10.
Qed.

Lemma healthy_quiet : healthy quiet.
Proof. intros n. reflexivity. Qed.

Lemma only_voter_others (vs : list Votes.row) (p u : string) (k : Z) :
  only_voter vs p u = true -> others_count vs p u k = 0.
Proof.
  unfold only_voter, others_count. intros H. apply negb_true_iff in H.
  rewrite filter_none; [reflexivity|].
  induction vs as [|v vs IH]; simpl in *; [reflexivity|].
  apply orb_false_iff in H as [Hv H]. rewrite (IH H), orb_false_r.
  destruct (sql_eq (Votes.post_id v) (Some p)); simpl in *;
    [|reflexivity].
  rewrite Hv. apply andb_false_r.
Qed.

(** ** Re-voting *)

(** C1.  On a working store, when user [u] votes 1 on post [p] and then
    votes 0 on it, the first reply counts the vote among the true votes and
    the second counts it among the false votes only: with [t] and [f] the
    numbers of true and false votes of the other users, the replies are
    [(t + 1, f)] and then [(t, f + 1)].  Afterwards the table holds exactly
    one row for the pair [(p, u)], with value 0, and still satisfies its
    uniqueness constraint.  When no other user has voted on [p] the replies
    are [{true_votes: 1, false_votes: 0}] and
    [{true_votes: 0, false_votes: 1}]. *)
Theorem second_vote_overwrites (e1 e2 : env) (s : server) (p u : string) :
  uses_real e1 s = true -> healthy e1 -> healthy e2 ->
  votes_unique (votes (disk s)) = true ->
  let r1 := cast_vote e1 (vote p u 1) s in
  let r2 := cast_vote e2 (vote p u 0) (state r1) in
  let t := others_count (votes (disk s)) p u 1 in
  let f := others_count (votes (disk s)) p u 0 in
  reply r1 = mkResponse 200 (JVote (Some p) (Some (mkStats (t + 1) f)))
  /\ reply r2 = mkResponse 200 (JVote (Some p) (Some (mkStats t (f + 1))))
  /\ (exists i, filter (vote_of p u) (votes (disk (state r2)))
                = [Votes.mk i (Some p) (Some u) (Some 0)])
  /\ votes_unique (votes (disk (state r2))) = true
  /\ (only_voter (votes (disk s)) p u = true ->
      reply r1 = mkResponse 200 (JVote (Some p) (Some (mkStats 1 0)))
      /\ reply r2 = mkResponse 200 (JVote (Some p) (Some (mkStats 0 1)))).
Proof.
  intros Hr H1 H2 Hu r1 r2 t f.
  destruct (cast_vote_healthy e1 (vote p u 1) s Hr H1)
    as (Hd1 & Hdb1 & _ & _ & Hrep1 & _).
  fold r1 in Hd1, Hdb1, Hrep1. simpl in Hd1, Hrep1.
  assert (Hr2 : uses_real e2 (state r1) = true).
  { unfold uses_real, getDb. now rewrite Hdb1. }
  assert (Hu1 : votes_unique (votes (disk (state r1))) = true).
  { rewrite Hd1. now apply upsert_vote_unique. }
  destruct (cast_vote_healthy e2 (vote p u 0) (state r1) Hr2 H2)
    as (Hd2 & _ & _ & _ & Hrep2 & _).
  fold r2 in Hd2, Hrep2. simpl in Hd2, Hrep2.
  assert (E1 : reply r1
               = mkResponse 200 (JVote (Some p) (Some (mkStats (t + 1) f)))).
  { rewrite Hrep1. unfold select_stats.
    rewrite !count_after_upsert by exact Hu.
    unfold counts_as. simpl. fold t f. now rewrite Z.add_0_r. }
  assert (E2 : reply r2
               = mkResponse 200 (JVote (Some p) (Some (mkStats t (f + 1))))).
  { rewrite Hrep2. unfold select_stats.
    rewrite !count_after_upsert by exact Hu1.
    rewrite Hd1, !upsert_vote_others_count.
    unfold counts_as. simpl. fold t f. now rewrite Z.add_0_r. }
  split; [exact E1|]. split; [exact E2|]. split; [|split].
  - rewrite Hd2. now apply upsert_vote_mine.
  - rewrite Hd2. now apply upsert_vote_unique.
  - intros Ho. rewrite E1, E2. unfold t, f.
    now rewrite !only_voter_others by exact Ho.
Qed.

Lemma second_vote_overwrites_witness :
  reply (cast_vote quiet (vote "post_1" "user_1" 0)
           (state (cast_vote quiet (vote "post_1" "user_1" 1) (fresh false))))
  = mkResponse 200 (JVote (Some "post_1") (Some (mkStats 0 1))).
Proof.
  pose proof (second_vote_overwrites quiet quiet (fresh false)
                "post_1" "user_1" eq_refl healthy_quiet healthy_quiet
                eq_refl) as H.
  destruct H as (_ & _ & _ & _ & H).
  destruct (H eq_refl) as [_ H0]. exact H0.
Defined.

(** ** Vote values that are neither 0 nor 1 *)



(** A boolean is not stored at all: the bind throws, the vote handler
    answers with the zero-valued tallies and the table is as it was. *)
Lemma boolean_vote_is_not_stored
  (e : env) (s : server) (pid uid : text) (b : bool) :
  uses_real e s = true ->
  let r := cast_vote_raw e pid uid (VBoolean b) s in
  reply r = mkResponse 200 (JVote pid (Some (mkStats 0 0)))
  /\ disk (state r) = disk s /\ emitted r = [].
Proof.
  intros Hr. unfold cast_vote_raw. simpl. open_db e s; auto.
Qed.



(** ** Creating a post *)

Lemma left_join_users_rows
  (us : list Users.row) (p : Posts.row) (tv fv : Z) (x : Post.t) :
  In x (left_join_users us p tv fv) ->
  row_of x = p /\ Post.true_votes x = tv /\ Post.false_votes x = fv.
Proof.
  unfold left_join_users.
  destruct (filter (fun u => sql_eq (Posts.user_id p) (Users.id u)) us)
    as [|m ms].
  - intros [<-|[]]. now destruct p.
  - intros H. apply in_map_iff in H as (w & <- & _). now destruct p.
Qed.

Lemma select_new_post_zero (pid : text) (d : database) (x : Post.t) :
  select_new_post pid d = Some x ->
  Post.true_votes x = 0 /\ Post.false_votes x = 0.
Proof.
  unfold select_new_post. intros H.
  assert (Hin : In x (flat_map (fun p => left_join_users (users d) p 0 0)
                        (filter (fun p => sql_eq (Posts.id p) pid)
                                (posts d)))).
  { destruct (flat_map _ _); [discriminate|].
    injection H as ->. now left. }
  apply in_flat_map in Hin as (p & _ & Hp).
  now apply left_join_users_rows in Hp.
Qed.

(** What the inner [try] leaves behind when it does not produce a row: the
    tables as they were, or with the user added, or with the user and the
    post added. *)
Lemma try_db_first_frame (e : env) (b : post_body) (h : handle) (s : server) :
  memoryPosts (fst (try_db_first e b h s)) = memoryPosts s
  /\ ioInstance (fst (try_db_first e b h s)) = ioInstance s
  /\ db (fst (try_db_first e b h s)) = db s
  /\ votes (disk (fst (try_db_first e b h s))) = votes (disk s).
Proof.
  unfold try_db_first, insert_post, insert_or_ignore_user.
  destruct h; simpl; auto.
  destruct (throws e 0%nat); simpl; auto.
  destruct (throws e 1%nat); simpl.
  { destruct (existsb _ (users (disk s))); simpl; auto. }
  destruct (existsb _ (users (disk s))); simpl;
    destruct (existsb _ (posts (disk s))); simpl; auto;
    destruct (throws e 2%nat); simpl; auto.
Qed.

(** The create-post handler of [server.ts] refuses a body without a place
    name: status 400, tables and fallback list as they were, nothing sent on
    the socket. *)
Lemma create_post_requires_place_name (e : env) (b : post_body) (s : server) :
  falsy (b_place_name b) = true ->
  reply (create_post e b s)
  = mkResponse 400 (JError "Place name is required" None)
  /\ disk (state (create_post e b s)) = disk s
  /\ memoryPosts (state (create_post e b s)) = memoryPosts s
  /\ emitted (create_post e b s) = [].
Proof.
  intros H. unfold create_post.
  destruct (getDb_frame e s) as (Hd & Hm & _).
  destruct (getDb e s) as [s1 h]. rewrite H. simpl in *. auto.
Qed.

(** The earlier variant answers 201 to every create-post request. *)
Lemma earlier_create_post_status (e : env) (b : post_body)
  (s : Earlier.server) :
  status (Earlier.reply (Earlier.create_post e b s)) = 201.
Proof.
  unfold Earlier.create_post.
  now destruct (Earlier.try_db e b s) as [s1 [newPost|]].
Qed.

(** C2.  The handler of the earlier variant has no check of [place_name]:
    on a fresh, working deployment a body without [place_name] is answered
    201, a row with a NULL place name is stored in [posts], and a
    [post:created] event is emitted. *)
Theorem earlier_create_post_accepts_missing_place_name :
  let r := Earlier.create_post quiet no_place_name
             (Earlier.loaded false empty_database) in
  b_place_name no_place_name = None
  /\ status (Earlier.reply r) = 201
  /\ map Posts.place_name (posts (Earlier.disk (Earlier.state r))) = [None]
  /\ map fst (Earlier.emitted r) = ["post:created"].
Proof. repeat split. Qed.

(** ** Failing store writes *)

(** C3, as stated, does not hold: a report whose insert throws is answered
    with an error. *)
Lemma failed_report_is_not_acknowledged :
  ~ (forall (e : env) (s : server),
        uses_real e s = true -> throws e 0%nat = true ->
        (forall b, reply (cast_vote e b s)
                   = mkResponse 200
                       (JVote (vb_post_id b) (Some (mkStats 0 0))))
        /\ (forall b, is_error (reply (create_report e b s)) = false)).
Proof.
  intros H.
  destruct (H failing (fresh false) eq_refl eq_refl) as [_ Hrep].
  specialize (Hrep (mkReportBody (Some "post_1") (Some "user_1")
                                 (Some "wrong place"))).
  discriminate Hrep.
Qed.

(** C3, amended.  When the write of a vote throws, the vote handler answers
    200 with the zero-valued tallies [{post_id, true_votes: 0,
    false_votes: 0}] and emits nothing; so it does when the vote was written
    and the statistics query throws.  When the insert of a report throws,
    the report handler answers 500 with the error "Failed to report", and
    no report row is stored.  A report is acknowledged without being stored
    only when the database could not be opened and the mock stands in for
    it. *)
Theorem failed_writes (e : env) (s : server) :
  (uses_real e s = true ->
   forall b, throws e 0%nat = true \/ throws e 1%nat = true ->
     reply (cast_vote e b s)
     = mkResponse 200 (JVote (vb_post_id b) (Some (mkStats 0 0)))
     /\ emitted (cast_vote e b s) = [])
  /\ (uses_real e s = true ->
      forall b, throws e 0%nat = true ->
        reply (create_report e b s)
        = mkResponse 500 (JError "Failed to report" None)
        /\ reports (disk (state (create_report e b s))) = reports (disk s))
  /\ (uses_real e s = false ->
      forall b,
        reply (create_report e b s) = mkResponse 201 JSuccess
        /\ reports (disk (state (create_report e b s))) = reports (disk s)).
Proof.
  split; [|split]; intros Hr b.
  - intros Ht. unfold cast_vote. open_db e s;
      destruct (throws e 0%nat); simpl; auto;
      destruct Ht as [Ht|Ht]; try discriminate; rewrite Ht; auto.
  - intros Ht. unfold create_report. open_db e s; rewrite Ht; auto.
  - unfold create_report. open_db e s; auto.
Qed.

Lemma failed_writes_witness :
  reply (cast_vote failing (vote "post_1" "user_1" 1) (fresh false))
  = mkResponse 200 (JVote (Some "post_1") (Some (mkStats 0 0)))
  /\ reply (create_report failing
              (mkReportBody (Some "post_1") (Some "user_1") None)
              (fresh false))
     = mkResponse 500 (JError "Failed to report" None)
  /\ reply (create_report (mkEnv false (fun _ => false) 100 100)
              (mkReportBody (Some "post_1") (Some "user_1") None)
              (fresh false))
     = mkResponse 201 JSuccess.
Proof.
  destruct (failed_writes failing (fresh false)) as (Hv & Hr & _).
  destruct (failed_writes (mkEnv false (fun _ => false) 100 100)
              (fresh false)) as (_ & _ & Hm).
  split; [|split].
  - exact (proj1 (Hv eq_refl (vote "post_1" "user_1" 1)
                     (or_introl eq_refl))).
  - exact (proj1 (Hr eq_refl
                     (mkReportBody (Some "post_1") (Some "user_1") None)
                     eq_refl)).
  - exact (proj1 (Hm eq_refl
                     (mkReportBody (Some "post_1") (Some "user_1") None))).
Defined.

(** ** Accepted posts *)

(** The two ways out of the handler for a body with a place name. *)
Lemma create_post_valid (e : env) (b : post_body) (s : server) :
  falsy (b_place_name b) = false ->
  let r := create_post e b s in
  let t := try_db_first e b (snd (getDb e s)) (fst (getDb e s)) in
  match snd t with
  | Some newPost =>
      state r = fst t
      /\ reply r = mkResponse 201 (JPost newPost)
      /\ emitted r = emit (fst t) "post:created" (JPost newPost)
  | None =>
      state r = unshift (memPost e b) (fst t)
      /\ reply r = mkResponse 201 (JPost (memPost e b))
      /\ emitted r = emit (fst t) "post:created" (JPost (memPost e b))
  end.
Proof.
  intros H. unfold create_post.
  destruct (getDb e s) as [s1 h]. rewrite H. simpl.
  destruct (try_db_first e b h s1) as [s2 [newPost|]]; simpl; auto.
Qed.

(** The row read back comes from the table as the inner [try] left it. *)
Lemma try_db_first_row (e : env) (b : post_body) (h : handle) (s : server)
  (x : Post.t) :
  snd (try_db_first e b h s) = Some x ->
  select_new_post (b_id b) (disk (fst (try_db_first e b h s))) = Some x.
Proof.
  unfold try_db_first. destruct h; simpl; [|discriminate].
  destruct (throws e 0%nat); simpl; [discriminate|].
  destruct (throws e 1%nat); simpl; [discriminate|].
  destruct (insert_post _ _ _) as [d2|]; simpl; [|discriminate].
  destruct (throws e 2%nat); simpl; [discriminate|auto].
Qed.

(** C5.  For every create-post request with a place name the reply is a 201
    whose record has [true_votes = 0] and [false_votes = 0], whether the
    record is the row read back from the store or the fallback object. *)
Theorem created_post_has_zero_tallies (e : env) (b : post_body) (s : server) :
  falsy (b_place_name b) = false ->
  exists x,
    reply (create_post e b s) = mkResponse 201 (JPost x)
    /\ Post.true_votes x = 0 /\ Post.false_votes x = 0
    /\ (x = memPost e b
        \/ select_new_post (b_id b) (disk (state (create_post e b s)))
           = Some x).
Proof.
  intros H. pose proof (create_post_valid e b s H) as V. simpl in V.
  pose proof (try_db_first_row e b (snd (getDb e s)) (fst (getDb e s))) as R.
  destruct (snd (try_db_first e b (snd (getDb e s)) (fst (getDb e s))))
    as [newPost|].
  - destruct V as (Hs & Hr & _). exists newPost.
    specialize (R newPost eq_refl).
    destruct (select_new_post_zero _ _ _ R) as [T F].
    rewrite Hs. auto.
  - destruct V as (_ & Hr & _). exists (memPost e b). auto.
Qed.

Lemma created_post_has_zero_tallies_witness :
  exists x,
    reply (create_post quiet test_mosque (fresh false))
    = mkResponse 201 (JPost x)
    /\ Post.true_votes x = 0 /\ Post.false_votes x = 0
    /\ (x = memPost quiet test_mosque
        \/ select_new_post (b_id test_mosque)
             (disk (state (create_post quiet test_mosque (fresh false))))
           = Some x).
Proof.
  apply (created_post_has_zero_tallies quiet test_mosque (fresh false)).
  reflexivity.
Defined.

(** C8, as stated, does not hold: in production [startServer] creates no
    socket server and an accepted post emits nothing. *)
Lemma production_emits_nothing :
  ~ (forall (e : env) (b : post_body) (s : server),
        falsy (b_place_name b) = false ->
        emitted (create_post e b s)
        = [("post:created", body (reply (create_post e b s)))]).
Proof.
  intros H. specialize (H quiet test_mosque (fresh true) eq_refl).
  discriminate H.
Qed.

(** C8, amended.  Every create-post request with a place name is answered
    201 and, when the socket server exists (NODE_ENV is not "production"),
    emits exactly one [post:created] event whose payload is the record of
    the reply; without the socket server it emits nothing. *)
Theorem created_post_is_broadcast (e : env) (b : post_body) (s : server) :
  falsy (b_place_name b) = false ->
  status (reply (create_post e b s)) = 201
  /\ emitted (create_post e b s)
     = if ioInstance s
       then [("post:created", body (reply (create_post e b s)))]
       else [].
Proof.
  intros H. pose proof (create_post_valid e b s H) as V. simpl in V.
  destruct (getDb_frame e s) as (_ & _ & Hio & _).
  destruct (try_db_first_frame e b (snd (getDb e s)) (fst (getDb e s)))
    as (_ & Hio' & _).
  destruct (snd (try_db_first e b (snd (getDb e s)) (fst (getDb e s))))
    as [newPost|]; destruct V as (_ & -> & ->); simpl;
    unfold emit; rewrite Hio', Hio; auto.
Qed.

Lemma created_post_is_broadcast_witness :
  emitted (create_post quiet test_mosque (fresh false))
  = [("post:created",
      body (reply (create_post quiet test_mosque (fresh false))))].
Proof.
  exact (proj2 (created_post_is_broadcast quiet test_mosque (fresh false)
                  eq_refl)).
Defined.

(** ** The owner of a stored post *)

Lemma insert_or_ignore_user_posts (uid : text) (nm : string) (d : database) :
  posts (insert_or_ignore_user uid nm d) = posts d.
Proof.
  unfold insert_or_ignore_user. now destruct (existsb _ (users d)).
Qed.

(** After the insert-if-absent a row of the user is in the table. *)
Lemma insert_or_ignore_user_present (uid : text) (nm : string) (d : database) :
  exists usr,
    In usr (users (insert_or_ignore_user uid nm d)) /\ Users.id usr = uid.
Proof.
  unfold insert_or_ignore_user.
  destruct (existsb (fun u => sql_eq (Users.id u) uid) (users d)) eqn:E.
  - apply existsb_exists in E as (usr & Hin & Heq). exists usr.
    split; [exact Hin|].
    destruct uid as [x|]; [now apply sql_eq_some|].
    now destruct (Users.id usr).
  - exists (Users.mk uid (Some nm) None None). simpl. split; [|reflexivity].
    apply in_or_app. right. now left.
Qed.

Lemma insert_post_returned (b : post_body) (ts : Z) (d d2 : database) :
  insert_post b ts d = Returned d2 ->
  users d2 = users d
  /\ posts d2
     = posts d ++ [Posts.mk (b_id b) (b_user_id b) (b_place_name b)
                     (b_description b) (b_lat b) (b_lng b)
                     (b_distribution_time b) ts].
Proof.
  unfold insert_post. destruct (existsb _ (posts d)); [discriminate|].
  intros H. injection H as <-. auto.
Qed.

(** The tables after a create-post request: as they were, or with the user
    added, or with the user added and then the post inserted. *)
Lemma create_post_disk (e : env) (b : post_body) (s : server) :
  let d1 := insert_or_ignore_user (b_user_id b) "Anonymous User" (disk s) in
  disk (state (create_post e b s)) = disk s
  \/ disk (state (create_post e b s)) = d1
  \/ insert_post b (current_timestamp e) d1
     = Returned (disk (state (create_post e b s))).
Proof.
  unfold create_post.
  destruct (getDb_frame e s) as (Hd & _).
  destruct (getDb e s) as [s1 h]. simpl in Hd. rewrite <- Hd.
  destruct (falsy (b_place_name b)); simpl; auto.
  unfold try_db_first. destruct h; simpl; auto.
  destruct (throws e 0%nat); simpl; auto.
  destruct (throws e 1%nat); simpl; auto.
  destruct (insert_post b (current_timestamp e) _) as [d2|]; simpl; auto.
  destruct (throws e 2%nat); simpl; auto.
  destruct (select_new_post (b_id b) d2); simpl; auto.
Qed.

Lemma insert_or_ignore_user_again (uid nm : string) (d : database) :
  let d1 := insert_or_ignore_user (Some uid) nm d in
  existsb (fun u => sql_eq (Users.id u) (Some uid)) (users d1) = true
  /\ insert_or_ignore_user (Some uid) nm d1 = d1.
Proof.
  intros d1.
  assert (E : existsb (fun u => sql_eq (Users.id u) (Some uid)) (users d1)
              = true).
  { unfold d1, insert_or_ignore_user.
    destruct (existsb (fun u => sql_eq (Users.id u) (Some uid)) (users d))
      eqn:E; [exact E|].
    simpl. rewrite existsb_app. simpl. rewrite String.eqb_refl.
    now rewrite orb_true_r. }
  split; [exact E|].
  unfold insert_or_ignore_user at 1. now rewrite E.
Qed.

(** C7, as stated, does not hold: only [place_name] is required, and a
    body without [user_id] is stored with a NULL [user_id], which no row
    of [users] joins. *)
Lemma post_without_user_id_has_no_user :
  ~ (forall (e : env) (b : post_body) (s : server),
        let r := create_post e b s in
        posts (disk (state r)) <> posts (disk s) ->
        exists row,
          posts (disk (state r)) = posts (disk s) ++ [row]
          /\ existsb (fun usr => sql_eq (Posts.user_id row) (Users.id usr))
                     (users (disk (state r))) = true).
Proof.
  intros H.
  destruct (H quiet no_user_id (fresh false)) as (row & Hp & Hj).
  - vm_compute. discriminate.
  - vm_compute in Hp. injection Hp as <-. vm_compute in Hj. discriminate.
Qed.

(** C7, amended.  Whenever a create-post request adds a row to [posts],
    the insert of that row ran on the tables left by the insert-if-absent
    of the owner, and [users] is the same afterwards.  When the body has a
    [user_id], [users] holds at the time of the insert, and afterwards, a
    row that the join of the post finds, and the insert-if-absent is
    idempotent: run again it changes nothing.  When the body has no
    [user_id], the post row has a NULL [user_id], which no row of any
    [users] table joins, and the insert-if-absent has added a row with a
    NULL id (as it does on every such request). *)
Theorem stored_post_has_user (e : env) (b : post_body) (s : server) :
  let r := create_post e b s in
  let d1 := insert_or_ignore_user (b_user_id b) "Anonymous User" (disk s) in
  posts (disk (state r)) <> posts (disk s) ->
  exists row,
    insert_post b (current_timestamp e) d1 = Returned (disk (state r))
    /\ posts (disk (state r)) = posts (disk s) ++ [row]
    /\ Posts.user_id row = b_user_id b
    /\ users (disk (state r)) = users d1
    /\ (b_user_id b <> None ->
        existsb (fun usr => sql_eq (Posts.user_id row) (Users.id usr))
                (users d1) = true
        /\ insert_or_ignore_user (b_user_id b) "Anonymous User" d1 = d1)
    /\ (b_user_id b = None ->
        users d1
        = users (disk s) ++ [Users.mk None (Some "Anonymous User") None None]
        /\ forall us,
             existsb (fun usr => sql_eq (Posts.user_id row) (Users.id usr))
                     us = false).
Proof.
  intros r d1 Hne.
  destruct (create_post_disk e b s) as [H|[H|H]]; fold r d1 in H.
  - now rewrite H in Hne.
  - rewrite H in Hne. unfold d1 in Hne.
    now rewrite insert_or_ignore_user_posts in Hne.
  - destruct (insert_post_returned _ _ _ _ H) as [Hu Hp].
    unfold d1 in Hp at 1. rewrite insert_or_ignore_user_posts in Hp.
    eexists. split; [exact H|]. split; [exact Hp|]. simpl.
    split; [reflexivity|]. split; [exact Hu|]. split.
    + intros Hsome. unfold d1.
      destruct (b_user_id b) as [uid|]; [|contradiction].
      destruct (insert_or_ignore_user_again uid "Anonymous User" (disk s))
        as [Hex Hid].
      split; [|exact Hid].
      erewrite existsb_pointwise; [exact Hex|].
      intros usr. apply sql_eq_sym.
    + intros Hnone. unfold d1. rewrite Hnone. split.
      * unfold insert_or_ignore_user.
        rewrite (existsb_pointwise _ (fun _ => false));
          [|intros usr; now destruct (Users.id usr)].
        assert (F : existsb (fun _ : Users.row => false) (users (disk s))
                    = false)
          by (induction (users (disk s)); simpl; auto).
        now rewrite F.
      * intros us. now induction us.
Qed.

Lemma stored_post_has_user_witness :
  exists row,
    posts (disk (state (create_post quiet test_mosque (fresh false))))
    = [row]
    /\ existsb (fun usr => sql_eq (Posts.user_id row) (Users.id usr))
               (users (insert_or_ignore_user (b_user_id test_mosque)
                         "Anonymous User" (disk (fresh false)))) = true.
Proof.
  assert (N : posts (disk (state (create_post quiet test_mosque
                                     (fresh false))))
              <> posts (disk (fresh false))) by (vm_compute; discriminate).
  destruct (stored_post_has_user quiet test_mosque (fresh false) N)
    as (row & _ & Hp & _ & _ & Hj & _).
  exists row. split; [exact Hp|]. apply Hj. discriminate.
Defined.

(** ** The list query *)

Lemma insert_desc_perm (x : Post.t) (l : list Post.t) :
  Permutation (x :: l) (insert_desc x l).
Proof.
  induction l as [|y l IH]; simpl; [reflexivity|].
  destruct (Post.created_at y <=? Post.created_at x); [reflexivity|].
  rewrite perm_swap. now constructor.
Qed.

Lemma order_by_created_at_desc_perm (l : list Post.t) :
  Permutation l (order_by_created_at_desc l).
Proof.
  induction l as [|x l IH]; simpl; [constructor|].
  rewrite <- insert_desc_perm. now constructor.
Qed.

Lemma insert_desc_hd (x y : Post.t) (l : list Post.t) :
  newer_or_same y x -> HdRel newer_or_same y l ->
  HdRel newer_or_same y (insert_desc x l).
Proof.
  intros Hx Hl. destruct l as [|z l]; simpl; [now constructor|].
  destruct (Post.created_at z <=? Post.created_at x); constructor; auto.
  now inversion Hl.
Qed.

Lemma insert_desc_sorted (x : Post.t) (l : list Post.t) :
  newest_first l -> newest_first (insert_desc x l).
Proof.
  unfold newest_first. induction 1 as [|y l Hs IH Hd]; simpl.
  - repeat constructor.
  - destruct (Z.leb_spec (Post.created_at y) (Post.created_at x)) as [L|L].
    + constructor; [now constructor|]. now constructor.
    + constructor; [exact IH|].
      apply insert_desc_hd; [|exact Hd]. unfold newer_or_same. lia.
Qed.

Lemma order_by_created_at_desc_sorted (l : list Post.t) :
  newest_first (order_by_created_at_desc l).
Proof.
  induction l as [|x l IH]; simpl; [constructor|].
  now apply insert_desc_sorted.
Qed.

(** A primary key matches at most one row. *)
Lemma users_unique_match (us : list Users.row) (key : text) :
  users_unique us = true ->
  (List.length (filter (fun u => sql_eq key (Users.id u)) us) <= 1)%nat.
Proof.
  induction us as [|u us IH]; simpl; intros Hu; [lia|].
  apply andb_true_iff in Hu as [Hfresh Hu]. specialize (IH Hu).
  destruct (sql_eq key (Users.id u)) eqn:E; [|exact IH].
  apply negb_true_iff in Hfresh.
  assert (K : key = Users.id u).
  { destruct key as [k|], (Users.id u) as [i|]; try discriminate.
    apply String.eqb_eq in E. now subst. }
  rewrite K, (filter_none _ _ Hfresh). simpl. lia.
Qed.

(** So the join yields one row per post. *)
Lemma left_join_users_single
  (us : list Users.row) (p : Posts.row) (tv fv : Z) :
  users_unique us = true ->
  exists nm, left_join_users us p tv fv = [select_row p nm tv fv].
Proof.
  intros Hu. unfold left_join_users.
  pose proof (users_unique_match us (Posts.user_id p) Hu) as L.
  destruct (filter (fun u => sql_eq (Posts.user_id p) (Users.id u)) us)
    as [|m [|m' ms]]; simpl in L; [now exists None| |lia].
  now exists (Users.name m).
Qed.

Lemma row_of_select_row (p : Posts.row) (nm : text) (tv fv : Z) :
  row_of (select_row p nm tv fv) = p.
Proof. now destruct p. Qed.

Lemma select_posts_rows (d : database) :
  users_unique (users d) = true ->
  Permutation (map row_of (select_posts d)) (posts d).
Proof.
  intros Hu. unfold select_posts.
  rewrite <- order_by_created_at_desc_perm.
  induction (posts d) as [|p ps IH]; simpl; [constructor|].
  destruct (left_join_users_single (users d) p
              (count_votes (votes d) (Posts.id p) 1)
              (count_votes (votes d) (Posts.id p) 0) Hu) as [nm ->].
  simpl. rewrite row_of_select_row. now constructor.
Qed.

(** Every row of the list query carries the counts of the vote rows. *)
Lemma select_posts_tallies (d : database) (x : Post.t) :
  In x (select_posts d) -> tallies_counted (votes d) x.
Proof.
  unfold select_posts. intros H.
  apply (Permutation_in _ (Permutation_sym
                             (order_by_created_at_desc_perm _))) in H.
  apply in_flat_map in H as (p & _ & Hp).
  apply left_join_users_rows in Hp as (Hrow & Ht & Hf).
  unfold tallies_counted. rewrite Ht, Hf, <- Hrow. now destruct x.
Qed.

(** ** Invariants of the runs *)

Lemma users_unique_snoc (us : list Users.row) (w : Users.row) :
  users_unique us = true ->
  existsb (fun u => sql_eq (Users.id u) (Users.id w)) us = false ->
  users_unique (us ++ [w]) = true.
Proof.
  induction us as [|u us IH]; simpl; intros Hu Hw; [reflexivity|].
  apply andb_true_iff in Hu as [Hfresh Hu].
  apply orb_false_iff in Hw as [Hv Hw].
  rewrite existsb_app. simpl. rewrite Hv, orb_false_r, Hfresh. simpl.
  now apply IH.
Qed.

Lemma insert_or_ignore_user_unique (uid : text) (nm : string) (d : database) :
  users_unique (users d) = true ->
  users_unique (users (insert_or_ignore_user uid nm d)) = true.
Proof.
  intros Hu. unfold insert_or_ignore_user.
  destruct (existsb (fun u => sql_eq (Users.id u) uid) (users d)) eqn:E;
    simpl; [exact Hu|].
  now apply users_unique_snoc.
Qed.

Lemma list_posts_state (e : env) (s : server) :
  state (list_posts e s) = fst (getDb e s).
Proof.
  unfold list_posts. destruct (getDb e s) as [s1 [|]]; simpl; auto.
  now destruct (throws e 0%nat).
Qed.

Lemma cast_vote_frame (e : env) (b : vote_body) (s : server) :
  users (disk (state (cast_vote e b s))) = users (disk s)
  /\ posts (disk (state (cast_vote e b s))) = posts (disk s)
  /\ reports (disk (state (cast_vote e b s))) = reports (disk s)
  /\ memoryPosts (state (cast_vote e b s)) = memoryPosts s.
Proof.
  unfold cast_vote.
  destruct (getDb_frame e s) as (Hd & Hm & _).
  destruct (getDb e s) as [s1 [|]]; simpl in *; rewrite <- Hd, <- Hm; auto.
  destruct (throws e 0%nat); simpl; auto.
  unfold upsert_vote.
  destruct (update_conflicting _ _ _ _);
    destruct (throws e 1%nat); simpl; auto.
Qed.

Lemma create_report_frame (e : env) (b : report_body) (s : server) :
  users (disk (state (create_report e b s))) = users (disk s)
  /\ posts (disk (state (create_report e b s))) = posts (disk s)
  /\ votes (disk (state (create_report e b s))) = votes (disk s)
  /\ memoryPosts (state (create_report e b s)) = memoryPosts s.
Proof.
  unfold create_report.
  destruct (getDb_frame e s) as (Hd & Hm & _).
  destruct (getDb e s) as [s1 [|]]; simpl in *; rewrite <- Hd, <- Hm; auto.
  destruct (throws e 0%nat); simpl; auto.
Qed.

(** The primary key of [users] holds along every run. *)
Lemma serve_users_unique (e : env) (rq : request) (s : server) :
  users_unique (users (disk s)) = true ->
  users_unique (users (disk (state (serve e rq s)))) = true.
Proof.
  intros Hu. destruct rq as [|b|b|b]; simpl.
  - rewrite list_posts_state. now destruct (getDb_frame e s) as (-> & _).
  - destruct (create_post_disk e b s) as [H|[H|H]].
    + now rewrite H.
    + rewrite H. now apply insert_or_ignore_user_unique.
    + apply insert_post_returned in H as [-> _].
      now apply insert_or_ignore_user_unique.
  - now destruct (cast_vote_frame e b s) as (-> & _).
  - now destruct (create_report_frame e b s) as (-> & _).
Qed.

Lemma run_users_unique (tr : list (env * request)) (s : server) :
  users_unique (users (disk s)) = true ->
  users_unique (users (disk (run tr s))) = true.
Proof.
  revert s. induction tr as [|[e rq] tr IH]; simpl; intros s Hu; [exact Hu|].
  apply IH. now apply serve_users_unique.
Qed.

(** The fallback list only grows, at its front, by fallback objects. *)
Lemma serve_memoryPosts (e : env) (rq : request) (s : server) :
  memoryPosts (state (serve e rq s)) = memoryPosts s
  \/ exists b,
       memoryPosts (state (serve e rq s)) = memPost e b :: memoryPosts s.
Proof.
  destruct rq as [|b|b|b]; simpl.
  - left. rewrite list_posts_state.
    now destruct (getDb_frame e s) as (_ & -> & _).
  - unfold create_post.
    destruct (getDb_frame e s) as (_ & Hm & _).
    destruct (getDb e s) as [s1 h]. simpl in Hm. rewrite <- Hm.
    destruct (falsy (b_place_name b)); simpl; auto.
    destruct (try_db_first_frame e b h s1) as (Hm' & _).
    destruct (try_db_first e b h s1) as [s2 [x|]]; simpl in *;
      rewrite Hm'; eauto.
  - left. now destruct (cast_vote_frame e b s) as (_ & _ & _ & ->).
  - left. now destruct (create_report_frame e b s) as (_ & _ & _ & ->).
Qed.

Lemma run_memoryPosts (tr : list (env * request)) (s : server) :
  exists newer, memoryPosts (run tr s) = newer ++ memoryPosts s.
Proof.
  revert s. induction tr as [|[e rq] tr IH]; simpl; intros s.
  - now exists [].
  - destruct (IH (state (serve e rq s))) as [newer ->].
    destruct (serve_memoryPosts e rq s) as [->|[b ->]].
    + now exists newer.
    + exists (newer ++ [memPost e b]). now rewrite <- app_assoc.
Qed.

(** With a clock that does not run backwards the fallback list stays
    newest first. *)
Lemma run_newest_first (tr : list (env * request)) (c : Z) (s : server) :
  newest_first (memoryPosts s) ->
  Forall (fun x => Post.created_at x <= c) (memoryPosts s) ->
  clock_ok c tr ->
  newest_first (memoryPosts (run tr s)).
Proof.
  revert c s. induction tr as [|[e rq] tr IH]; simpl; intros c s Hs Hb Hc;
    [exact Hs|].
  destruct Hc as [Hc Htr]. apply (IH (date_now e)); [| |exact Htr].
  - destruct (serve_memoryPosts e rq s) as [->|[b ->]]; [exact Hs|].
    constructor; [exact Hs|].
    destruct (memoryPosts s) as [|y l]; constructor.
    inversion Hb; subst. unfold newer_or_same. simpl. lia.
  - assert (Hb' : Forall (fun x => Post.created_at x <= date_now e)
                         (memoryPosts s)).
    { eapply Forall_impl; [|exact Hb]. simpl. intros; lia. }
    destruct (serve_memoryPosts e rq s) as [->|[b ->]]; [exact Hb'|].
    constructor; [simpl; lia|exact Hb'].
Qed.

(** The reply to a list-posts request. *)
Lemma list_posts_reply (e : env) (s : server) :
  exists stored,
    reply (list_posts e s) = mkResponse 200 (JPosts (stored ++ memoryPosts s))
    /\ emitted (list_posts e s) = []
    /\ (stored = [] \/ stored = select_posts (disk s))
    /\ (uses_real e s = true -> throws e 0%nat = false ->
        stored = select_posts (disk s)).
Proof.
  unfold list_posts, uses_real.
  destruct (getDb_frame e s) as (Hd & Hm & _).
  destruct (getDb e s) as [s1 [|]]; simpl in *; rewrite ?Hd, ?Hm.
  - destruct (throws e 0%nat).
    + exists []. simpl. repeat split; auto. discriminate.
    + exists (select_posts (disk s)). auto.
  - exists []. simpl. repeat split; auto. discriminate.
Qed.

(** ** Listing posts *)

(** The list [memoryPosts] starts with is newest first when the reading for
    the second sample is not later than the reading for the first. *)
Lemma loaded_newest_first (production : bool) (d : database)
  (dt1 dt2 : string) (t1 t2 : Z) :
  t2 <= t1 ->
  newest_first (memoryPosts (loaded production d dt1 t1 dt2 t2))
  /\ Forall (fun x => Post.created_at x <= t1)
            (memoryPosts (loaded production d dt1 t1 dt2 t2)).
Proof.
  intros H. split.
  - repeat constructor. exact H.
  - repeat constructor; simpl; lia.
Qed.

Lemma newest_first_app (a b : list Post.t) :
  newest_first a -> newest_first b ->
  (forall x y, In x a -> In y b -> newer_or_same x y) ->
  newest_first (a ++ b).
Proof.
  unfold newest_first.
  induction a as [|x a IH]; simpl; intros Ha Hb Hab; [exact Hb|].
  inversion Ha as [|? ? Hs Hd]; subst. constructor.
  - apply IH; auto.
  - destruct a as [|x' a]; simpl.
    + destruct b as [|y b]; constructor. apply Hab; now left.
    + constructor. now inversion Hd.
Qed.

Lemma newest_first_app_r (a b : list Post.t) :
  newest_first (a ++ b) -> newest_first b.
Proof.
  unfold newest_first. induction a as [|x a IH]; simpl; [auto|].
  intros H. inversion H; auto.
Qed.

(** Under a clock that does not run backwards the posts a run adds to the
    fallback list are newest first, and none is older than the reading the
    run started at. *)
Lemma run_newer (tr : list (env * request)) (c : Z) (s : server) :
  clock_ok c tr ->
  exists newer,
    memoryPosts (run tr s) = newer ++ memoryPosts s
    /\ newest_first newer
    /\ Forall (fun x => c <= Post.created_at x) newer.
Proof.
  revert c s. induction tr as [|[e rq] tr IH]; simpl; intros c s Hc.
  - exists []. repeat split; constructor.
  - destruct Hc as [Hc Htr].
    destruct (IH (date_now e) (state (serve e rq s)) Htr)
      as (newer & Hm & Hs & Hb).
    assert (Hb' : Forall (fun x => c <= Post.created_at x) newer).
    { eapply Forall_impl; [|exact Hb]. simpl. intros; lia. }
    destruct (serve_memoryPosts e rq s) as [E|[b E]]; rewrite E in Hm.
    + exists newer. auto.
    + exists (newer ++ [memPost e b]). split; [|split].
      * now rewrite Hm, <- app_assoc.
      * apply newest_first_app; [exact Hs|repeat constructor|].
        intros x y Hx [<-|[]]. unfold newer_or_same. simpl.
        exact (proj1 (Forall_forall _ _) Hb x Hx).
      * apply Forall_app. split; [exact Hb'|].
        repeat constructor. simpl. exact Hc.
Qed.

(** C4, as stated, does not hold: the timestamp of [sample-1] is read
    before that of [sample-2], and when the clock ticks in between the
    fallback posts of a fresh deployment are listed older first. *)
Lemma samples_are_listed_older_first :
  ~ (forall (t1 t2 : Z) (tr : list (env * request)) (e : env),
        t1 <= t2 -> clock_ok t2 tr ->
        let s := run tr (loaded false empty_database
                           "2026-03-01T00:00:00.005Z" t1
                           "2026-03-01T00:00:00.006Z" t2) in
        uses_real e s = true -> throws e 0%nat = false ->
        exists stored,
          reply (list_posts e s)
          = mkResponse 200 (JPosts (stored ++ memoryPosts s))
          /\ newest_first stored
          /\ newest_first (memoryPosts s)).
Proof.
  intros H.
  destruct (H 5 6 [] quiet ltac:(lia) I eq_refl eq_refl) as (stored & _ & _ & N).
  simpl in N. inversion N as [|? ? _ Hd]; subst.
  inversion Hd as [|? ? R]; subst. unfold newer_or_same in R. simpl in R.
  lia.
Qed.

(** C4, amended.  After any run of requests on the loaded server, under a
    clock that does not run backwards, a list-posts request whose query
    succeeds is answered with the rows of the [posts] table, one per row
    and newest first by [created_at], followed by the fallback list: the
    posts created through the memory fallback, newest first and none older
    than the samples, and after them [sample-1] then [sample-2].  The
    timestamp of [sample-1] is read first, so the fallback list as a whole
    is newest first exactly when the two samples carry the same
    timestamp. *)
Theorem listing_order
  (production : bool) (d : database) (dt1 dt2 : string) (t1 t2 : Z)
  (tr : list (env * request)) (e : env) :
  users_unique (users d) = true ->
  t1 <= t2 -> clock_ok t2 tr ->
  let s := run tr (loaded production d dt1 t1 dt2 t2) in
  let samples := [sample_1 dt1 t1; sample_2 dt2 t2] in
  uses_real e s = true -> throws e 0%nat = false ->
  exists stored newer,
    reply (list_posts e s)
    = mkResponse 200 (JPosts (stored ++ newer ++ samples))
    /\ memoryPosts s = newer ++ samples
    /\ Permutation (map row_of stored) (posts (disk s))
    /\ newest_first stored
    /\ newest_first newer
    /\ Forall (fun x => t2 <= Post.created_at x) newer
    /\ (newest_first (memoryPosts s) <-> t1 = t2).
Proof.
  intros Hu Ht Hc s samples Hr Hq.
  destruct (list_posts_reply e s) as (stored & Hrep & _ & _ & Hst).
  specialize (Hst Hr Hq). subst stored.
  destruct (run_newer tr t2 (loaded production d dt1 t1 dt2 t2) Hc)
    as (newer & Hm & Hs & Hb).
  fold s in Hm. simpl in Hm. fold samples in Hm.
  exists (select_posts (disk s)), newer.
  split; [now rewrite <- Hm|]. split; [exact Hm|]. split; [|split; [|split]].
  - apply select_posts_rows. unfold s. now apply run_users_unique.
  - apply order_by_created_at_desc_sorted.
  - exact Hs.
  - split; [exact Hb|]. rewrite Hm. split.
    + intros N. apply newest_first_app_r in N.
      inversion N as [|? ? _ Hd]; subst.
      inversion Hd as [|? ? R]; subst.
      unfold newer_or_same in R. simpl in R. lia.
    + intros ->. apply newest_first_app; [exact Hs| |].
      * repeat constructor. unfold newer_or_same. simpl. lia.
      * intros x y Hx Hy.
        pose proof (proj1 (Forall_forall _ _) Hb x Hx) as L.
        unfold newer_or_same. cbv beta in L.
        destruct Hy as [<-|[<-|[]]]; simpl; lia.
Qed.

Lemma listing_order_witness :
  exists stored newer,
    reply (list_posts quiet (run busy_evening ticked))
    = mkResponse 200
        (JPosts (stored ++ newer
                 ++ [sample_1 "2026-03-01T00:00:00.005Z" 5;
                     sample_2 "2026-03-01T00:00:00.006Z" 6]))
    /\ Permutation (map row_of stored)
                   (posts (disk (run busy_evening ticked)))
    /\ newest_first stored
    /\ newest_first newer.
Proof.
  destruct (listing_order false empty_database
              "2026-03-01T00:00:00.005Z" "2026-03-01T00:00:00.006Z" 5 6
              busy_evening quiet eq_refl)
    as (stored & newer & H1 & _ & H3 & H4 & H5 & _).
  - lia.
  - simpl. lia.
  - reflexivity.
  - reflexivity.
  - exists stored, newer. auto.
Defined.

(** C9.  After any run of the server of [server.ts] the fallback list ends
    with the two samples, and every list-posts reply, whatever the state of
    the database, is a 200 whose array ends with them: the rows of the
    store when the query succeeds (none otherwise), then the fallback posts
    created since, then [sample-1] and [sample-2].  On a deployment whose
    database is empty the reply is the two samples. *)
Theorem samples_always_listed
  (production : bool) (d : database) (dt1 dt2 : string) (t1 t2 : Z)
  (tr : list (env * request)) (e : env) :
  let s := run tr (loaded production d dt1 t1 dt2 t2) in
  let samples := [sample_1 dt1 t1; sample_2 dt2 t2] in
  (exists stored newer,
      reply (list_posts e s)
      = mkResponse 200 (JPosts (stored ++ newer ++ samples))
      /\ memoryPosts s = newer ++ samples
      /\ (uses_real e s = true -> throws e 0%nat = false ->
          stored = select_posts (disk s)))
  /\ reply (list_posts e (loaded production empty_database dt1 t1 dt2 t2))
     = mkResponse 200 (JPosts samples)
  /\ map Post.id samples = [Some "sample-1"; Some "sample-2"].
Proof.
  intros s samples. split; [|split].
  - destruct (list_posts_reply e s) as (stored & Hrep & _ & _ & Hst).
    destruct (run_memoryPosts tr (loaded production d dt1 t1 dt2 t2))
      as [newer Hm].
    fold s in Hm. simpl in Hm. fold samples in Hm.
    exists stored, newer. now rewrite <- Hm.
  - destruct (list_posts_reply e
                (loaded production empty_database dt1 t1 dt2 t2))
      as (stored & Hrep & _ & [->| ->] & _); exact Hrep.
  - reflexivity.
Qed.

Lemma samples_always_listed_witness :
  exists newer,
    reply (list_posts quiet (run busy_evening (fresh false)))
    = mkResponse 200
        (JPosts (select_posts (disk (run busy_evening (fresh false)))
                 ++ newer
                 ++ [sample_1 "2026-03-01T00:00:00.000Z" 0;
                     sample_2 "2026-03-01T00:00:00.000Z" 0])).
Proof.
  destruct (samples_always_listed false empty_database
              "2026-03-01T00:00:00.000Z" "2026-03-01T00:00:00.000Z" 0 0
              busy_evening quiet) as [(stored & newer & Hrep & _ & Hst) _].
  exists newer. unfold fresh. rewrite <- (Hst eq_refl eq_refl). exact Hrep.
Defined.

(** ** Where the tallies come from *)

(** C6, as stated, does not hold: the fallback posts of a list carry
    tallies that are not counts of vote rows. *)
Lemma fallback_tallies_are_not_counted :
  ~ (forall (e : env) (s : server) (l : list Post.t) (x : Post.t),
        reply (list_posts e s) = mkResponse 200 (JPosts l) ->
        In x l -> tallies_counted (votes (disk s)) x).
Proof.
  intros H.
  destruct (H quiet (fresh false) _
              (sample_1 "2026-03-01T00:00:00.000Z" 0)
              eq_refl (or_introl eq_refl)) as [T _].
  discriminate T.
Qed.

(** C6, amended.  On a working store, every post of a list-posts reply that
    comes from the store has for tallies the numbers of vote rows of its id
    with value 1 and with value 0 in the table at the time of the request,
    and the tallies in the reply of a cast-vote request, which are also
    those of its [post:voted] event, are these numbers for the table as the
    vote leaves it.  A vote changes no table other than [votes] and no post
    of the fallback list.  The fallback posts that follow the stored ones in
    a list keep the tallies they were created with. *)
Theorem tallies_are_counted (e : env) (s : server) :
  uses_real e s = true -> healthy e ->
  (exists stored,
      reply (list_posts e s)
      = mkResponse 200 (JPosts (stored ++ memoryPosts s))
      /\ Forall (tallies_counted (votes (disk s))) stored)
  /\ (forall b,
        let r := cast_vote e b s in
        let vs' := votes (disk (state r)) in
        let st := JVote (vb_post_id b)
                    (Some (mkStats (count_votes vs' (vb_post_id b) 1)
                                   (count_votes vs' (vb_post_id b) 0))) in
        reply r = mkResponse 200 st
        /\ emitted r = (if ioInstance s then [("post:voted", st)] else [])
        /\ users (disk (state r)) = users (disk s)
        /\ posts (disk (state r)) = posts (disk s)
        /\ reports (disk (state r)) = reports (disk s)
        /\ memoryPosts (state r) = memoryPosts s).
Proof.
  intros Hr Hh. split.
  - destruct (list_posts_reply e s) as (stored & Hrep & _ & _ & Hst).
    specialize (Hst Hr (Hh 0%nat)). subst stored.
    eexists. split; [exact Hrep|].
    apply Forall_forall. intros x Hx. now apply select_posts_tallies.
  - intros b r vs' st.
    destruct (cast_vote_healthy e b s Hr Hh) as (Hd & _ & _ & _ & Hrep & Hem).
    destruct (cast_vote_frame e b s) as (Hu & Hp & Hre & Hm).
    fold r in Hd, Hrep, Hem, Hu, Hp, Hre, Hm.
    repeat split; try assumption.
    + rewrite Hrep. unfold st, vs'. now rewrite Hd.
    + rewrite Hem. unfold st, vs'. now rewrite Hd.
Qed.

Lemma tallies_are_counted_witness :
  let s := state (create_post quiet test_mosque (fresh false)) in
  let r := cast_vote quiet (vote "post_1" "user_1" 1) s in
  reply r
  = mkResponse 200
      (JVote (Some "post_1")
         (Some (mkStats
                  (count_votes (votes (disk (state r))) (Some "post_1") 1)
                  (count_votes (votes (disk (state r))) (Some "post_1") 0)))).
Proof.
  intros s r.
  destruct (tallies_are_counted quiet s eq_refl healthy_quiet) as [_ H].
  exact (proj1 (H (vote "post_1" "user_1" 1))).
Defined.

(** * Further properties of the server *)

(** ** The database handle *)

Lemma create_post_db (e : env) (b : post_body) (s : server) :
  db (state (create_post e b s)) = Some (snd (getDb e s)).
Proof.
  unfold create_post.
  destruct (getDb_frame e s) as (_ & _ & _ & Hdb).
  destruct (getDb e s) as [s1 h]. simpl in Hdb.
  destruct (falsy (b_place_name b)); simpl; [exact Hdb|].
  destruct (try_db_first_frame e b h s1) as (_ & _ & Hdb' & _).
  destruct (try_db_first e b h s1) as [s2 [x|]]; simpl in *; congruence.
Qed.

Lemma cast_vote_db (e : env) (b : vote_body) (s : server) :
  db (state (cast_vote e b s)) = Some (snd (getDb e s)).
Proof.
  unfold cast_vote.
  destruct (getDb_frame e s) as (_ & _ & _ & Hdb).
  destruct (getDb e s) as [s1 [|]]; simpl in *; [|exact Hdb].
  destruct (throws e 0%nat); simpl; [exact Hdb|].
  destruct (throws e 1%nat); simpl; exact Hdb.
Qed.

Lemma create_report_db (e : env) (b : report_body) (s : server) :
  db (state (create_report e b s)) = Some (snd (getDb e s)).
Proof.
  unfold create_report.
  destruct (getDb_frame e s) as (_ & _ & _ & Hdb).
  destruct (getDb e s) as [s1 [|]]; simpl in *; [|exact Hdb].
  destruct (throws e 0%nat); simpl; exact Hdb.
Qed.

Lemma serve_db (e : env) (rq : request) (s : server) :
  db (state (serve e rq s)) = Some (snd (getDb e s)).
Proof.
  destruct rq as [|b|b|b]; simpl.
  - rewrite list_posts_state.
    now destruct (getDb_frame e s) as (_ & _ & _ & ->).
  - apply create_post_db.
  - apply cast_vote_db.
  - apply create_report_db.
Qed.

Lemma getDb_cached (e : env) (s : server) (h : handle) :
  db s = Some h -> getDb e s = (s, h).
Proof. unfold getDb. now intros ->. Qed.

Lemma run_db (tr : list (env * request)) (s : server) (h : handle) :
  db s = Some h -> db (run tr s) = Some h.
Proof.
  revert s. induction tr as [|[e rq] tr IH]; simpl; intros s H; [exact H|].
  apply IH. rewrite serve_db. now rewrite (getDb_cached e s h H).
Qed.

(** The handle the first request gets, the real database or the mock, is
    the one every later request gets, whether or not the database could be
    opened by then: [getDb] never tries again. *)
Theorem handle_is_kept
  (e : env) (rq : request) (s : server) (tr : list (env * request))
  (e' : env) :
  snd (getDb e' (run tr (state (serve e rq s)))) = snd (getDb e s).
Proof.
  pose proof (run_db tr (state (serve e rq s)) (snd (getDb e s))
                (serve_db e rq s)) as H.
  now rewrite (getDb_cached e' _ _ H).
Qed.

(** ** The mock database *)

Lemma serve_mock_disk (e : env) (rq : request) (s : server) :
  db s = Some MockDatabase -> disk (state (serve e rq s)) = disk s.
Proof.
  intros H. destruct rq as [|b|b|b]; simpl.
  - unfold list_posts. now rewrite (getDb_cached e s _ H).
  - unfold create_post. rewrite (getDb_cached e s _ H).
    now destruct (falsy (b_place_name b)).
  - unfold cast_vote. now rewrite (getDb_cached e s _ H).
  - unfold create_report. now rewrite (getDb_cached e s _ H).
Qed.

Lemma run_mock_disk (tr : list (env * request)) (s : server) :
  db s = Some MockDatabase -> disk (run tr s) = disk s.
Proof.
  revert s. induction tr as [|[e rq] tr IH]; simpl; intros s H;
    [reflexivity|].
  rewrite IH, serve_mock_disk; auto.
  rewrite serve_db. now rewrite (getDb_cached e s _ H).
Qed.

(** Once the mock stands in for the database no request writes to the
    database file.  A list is then the fallback list alone, every accepted
    post goes to the fallback list, and a vote is answered with its
    [post_id] and no tallies. *)
Theorem mock_never_writes
  (tr : list (env * request)) (s : server) (e : env) :
  db s = Some MockDatabase ->
  let s' := run tr s in
  disk s' = disk s
  /\ reply (list_posts e s') = mkResponse 200 (JPosts (memoryPosts s'))
  /\ (forall b, falsy (b_place_name b) = false ->
        memoryPosts (state (create_post e b s'))
        = memPost e b :: memoryPosts s'
        /\ reply (create_post e b s') = mkResponse 201 (JPost (memPost e b)))
  /\ (forall b, reply (cast_vote e b s')
                = mkResponse 200 (JVote (vb_post_id b) None)).
Proof.
  intros H s'.
  pose proof (run_db tr s MockDatabase H) as Hdb. fold s' in Hdb.
  split; [now apply run_mock_disk|]. split; [|split].
  - unfold list_posts. now rewrite (getDb_cached e s' _ Hdb).
  - intros b Hb. unfold create_post.
    rewrite (getDb_cached e s' _ Hdb), Hb. simpl. auto.
  - intros b. unfold cast_vote. now rewrite (getDb_cached e s' _ Hdb).
Qed.

Lemma mock_never_writes_witness :
  let e := mkEnv false (fun _ => false) 5 5 in
  let s' := run [(quiet, CastVote (vote "post_1" "user_1" 1))]
                (state (create_post e test_mosque (fresh false))) in
  disk s' = empty_database
  /\ reply (list_posts quiet s') = mkResponse 200 (JPosts (memoryPosts s')).
Proof.
  intros e s'.
  destruct (mock_never_writes
              [(quiet, CastVote (vote "post_1" "user_1" 1))]
              (state (create_post e test_mosque (fresh false))) quiet
              eq_refl) as (Hd & Hl & _).
  split; [exact Hd|exact Hl].
Defined.

(** ** Status codes *)

(** The status of every reply: a list and a vote are always answered 200;
    a create-post is answered 400 when the place name is missing or empty
    and 201 otherwise, never 500; a report is answered 500 when its insert
    throws on the real database and 201 otherwise. *)
Theorem status_of_reply (e : env) (rq : request) (s : server) :
  status (reply (serve e rq s))
  = match rq with
    | ListPosts => 200
    | CastVote _ => 200
    | CreatePost b => if falsy (b_place_name b) then 400 else 201
    | CreateReport _ => if uses_real e s && throws e 0%nat then 500 else 201
    end.
Proof.
  destruct rq as [|b|b|b]; simpl.
  - destruct (list_posts_reply e s) as (stored & -> & _). reflexivity.
  - unfold create_post. destruct (getDb e s) as [s1 h].
    destruct (falsy (b_place_name b)); simpl; [reflexivity|].
    now destruct (try_db_first e b h s1) as [s2 [x|]].
  - unfold cast_vote. destruct (getDb e s) as [s1 [|]]; simpl; auto.
    destruct (throws e 0%nat); simpl; auto.
    now destruct (throws e 1%nat).
  - unfold create_report, uses_real.
    destruct (getDb e s) as [s1 [|]]; simpl; auto.
    now destruct (throws e 0%nat).
Qed.

Lemma create_post_requires_place_name_witness :
  let b := mkPostBody (Some "post_3") (Some "user_1") (Some "") None None
                      None None in
  reply (create_post quiet b (fresh false))
  = mkResponse 400 (JError "Place name is required" None)
  /\ disk (state (create_post quiet b (fresh false))) = disk (fresh false)
  /\ memoryPosts (state (create_post quiet b (fresh false)))
     = memoryPosts (fresh false)
  /\ emitted (create_post quiet b (fresh false)) = [].
Proof.
  intros b. apply (create_post_requires_place_name quiet b (fresh false)).
  reflexivity.
Defined.

(** ** Where an accepted post goes *)

Lemma uses_real_handle (e : env) (s : server) :
  uses_real e s = true -> snd (getDb e s) = RealDatabase.
Proof. unfold uses_real. now destruct (snd (getDb e s)). Qed.

Lemma try_db_first_duplicate (e : env) (b : post_body) (s : server) :
  existsb (fun p => sql_eq (Posts.id p) (b_id b)) (posts (disk s)) = true ->
  snd (try_db_first e b RealDatabase s) = None
  /\ posts (disk (fst (try_db_first e b RealDatabase s))) = posts (disk s).
Proof.
  intros Hdup. unfold try_db_first.
  destruct (throws e 0%nat); simpl; [auto|].
  destruct (throws e 1%nat); simpl;
    [split; [reflexivity|apply insert_or_ignore_user_posts]|].
  unfold insert_post. rewrite insert_or_ignore_user_posts, Hdup. simpl.
  split; [reflexivity|apply insert_or_ignore_user_posts].
Qed.

(** A second post with an id that is already in [posts] is refused by the
    primary key, and the handler puts it in the fallback list instead: the
    table keeps the first post, the reply is the fallback object. *)
Theorem duplicate_id_goes_to_memory
  (e : env) (b : post_body) (s : server) :
  uses_real e s = true ->
  falsy (b_place_name b) = false ->
  existsb (fun p => sql_eq (Posts.id p) (b_id b)) (posts (disk s)) = true ->
  let r := create_post e b s in
  posts (disk (state r)) = posts (disk s)
  /\ memoryPosts (state r) = memPost e b :: memoryPosts s
  /\ reply r = mkResponse 201 (JPost (memPost e b)).
Proof.
  intros Hr Hb Hdup r.
  pose proof (create_post_valid e b s Hb) as V. simpl in V. fold r in V.
  rewrite (uses_real_handle e s Hr) in V.
  destruct (getDb_frame e s) as (Hd & Hm & _).
  rewrite <- Hd in Hdup.
  destruct (try_db_first_duplicate e b (fst (getDb e s)) Hdup) as [Hn Hp].
  destruct (try_db_first_frame e b RealDatabase (fst (getDb e s)))
    as (Hm' & _).
  set (t := try_db_first e b RealDatabase (fst (getDb e s))) in *.
  rewrite Hn in V. destruct V as (-> & Hrep & _).
  unfold unshift. cbn [disk memoryPosts].
  rewrite Hp, Hd, Hm', Hm. auto.
Qed.

Lemma duplicate_id_goes_to_memory_witness :
  let s := state (create_post quiet test_mosque (fresh false)) in
  let r := create_post quiet test_mosque s in
  posts (disk (state r)) = posts (disk s)
  /\ memoryPosts (state r) = memPost quiet test_mosque :: memoryPosts s
  /\ reply r = mkResponse 201 (JPost (memPost quiet test_mosque)).
Proof.
  intros s r.
  apply (duplicate_id_goes_to_memory quiet test_mosque s);
    reflexivity.
Defined.

Lemma select_new_post_fresh
  (b : post_body) (ts : Z) (d d2 : database) (i : string) :
  b_id b = Some i ->
  insert_post b ts d = Returned d2 ->
  exists x,
    select_new_post (b_id b) d2 = Some x
    /\ row_of x
       = Posts.mk (b_id b) (b_user_id b) (b_place_name b) (b_description b)
                  (b_lat b) (b_lng b) (b_distribution_time b) ts.
Proof.
  intros Hid H. unfold insert_post in H.
  destruct (existsb (fun p => sql_eq (Posts.id p) (b_id b)) (posts d)) eqn:E;
    [discriminate|].
  injection H as <-. unfold select_new_post. simpl.
  rewrite filter_app, (filter_none _ _ E). simpl.
  rewrite Hid, sql_eq_refl. simpl. rewrite app_nil_r.
  set (p := Posts.mk _ _ _ _ _ _ _ _).
  pose proof (left_join_users_rows (users d) p 0 0) as R.
  unfold left_join_users in *.
  destruct (filter (fun u => sql_eq (Posts.user_id p) (Users.id u)) (users d))
    as [|m ms]; simpl in *; eexists; (split; [reflexivity|]);
    apply R; now left.
Qed.

Lemma create_post_fresh_id (e : env) (b : post_body) (s : server) (i : string) :
  uses_real e s = true -> healthy e ->
  falsy (b_place_name b) = false ->
  b_id b = Some i ->
  existsb (fun p => sql_eq (Posts.id p) (b_id b)) (posts (disk s)) = false ->
  let r := create_post e b s in
  let row := Posts.mk (b_id b) (b_user_id b) (b_place_name b)
                      (b_description b) (b_lat b) (b_lng b)
                      (b_distribution_time b) (current_timestamp e) in
  exists x,
    reply r = mkResponse 201 (JPost x)
    /\ row_of x = row
    /\ posts (disk (state r)) = posts (disk s) ++ [row]
    /\ memoryPosts (state r) = memoryPosts s.
Proof.
  intros Hr Hh Hb Hid Hfresh r row.
  set (d1 := insert_or_ignore_user (b_user_id b) "Anonymous User" (disk s)).
  assert (Hins : exists d2,
             insert_post b (current_timestamp e) d1 = Returned d2
             /\ posts d2 = posts (disk s) ++ [row]).
  { unfold insert_post, d1. rewrite insert_or_ignore_user_posts, Hfresh.
    eexists. split; reflexivity. }
  destruct Hins as (d2 & Hins & Hp).
  destruct (select_new_post_fresh b _ d1 d2 i Hid Hins) as (x & Hx & Hrow).
  exists x.
  pose proof (create_post_valid e b s Hb) as V. simpl in V. fold r in V.
  rewrite (uses_real_handle e s Hr) in V.
  destruct (getDb_frame e s) as (Hd & Hm & _).
  assert (T : try_db_first e b RealDatabase (fst (getDb e s))
              = (with_disk (fst (getDb e s)) d2, Some x)).
  { unfold try_db_first. rewrite !Hh, Hd. fold d1. now rewrite Hins, Hx. }
  rewrite T in V. simpl in V. destruct V as (-> & Hrep & _). simpl.
  rewrite Hp, Hm. auto.
Qed.

(** On a working store a post with a place name and an id not yet in
    [posts] is stored: the table gains exactly its row, stamped with the
    time of the database, the fallback list is left alone, and the record of
    the 201 reply is that row. *)
Theorem new_post_is_stored (e : env) (b : post_body) (s : server) (i : string) :
  uses_real e s = true -> healthy e ->
  falsy (b_place_name b) = false ->
  b_id b = Some i ->
  existsb (fun p => sql_eq (Posts.id p) (b_id b)) (posts (disk s)) = false ->
  let r := create_post e b s in
  let row := Posts.mk (b_id b) (b_user_id b) (b_place_name b)
                      (b_description b) (b_lat b) (b_lng b)
                      (b_distribution_time b) (current_timestamp e) in
  exists x,
    reply r = mkResponse 201 (JPost x)
    /\ row_of x = row
    /\ posts (disk (state r)) = posts (disk s) ++ [row]
    /\ memoryPosts (state r) = memoryPosts s.
Proof.
  exact (create_post_fresh_id e b s i).
Qed.

Lemma new_post_is_stored_witness :
  exists x,
    reply (create_post quiet test_mosque (fresh false))
    = mkResponse 201 (JPost x)
    /\ Post.place_name x = Some "Test Mosque"
    /\ memoryPosts (state (create_post quiet test_mosque (fresh false)))
       = memoryPosts (fresh false).
Proof.
  destruct (new_post_is_stored quiet test_mosque (fresh false) "post_1"
              eq_refl healthy_quiet eq_refl eq_refl eq_refl)
    as (x & Hr & Hrow & _ & Hm).
  exists x. split; [exact Hr|]. split; [|exact Hm].
  change (Post.place_name x) with (Posts.place_name (row_of x)).
  now rewrite Hrow.
Defined.

(** ** What a request does to the tables *)

Lemma cast_vote_disk (e : env) (b : vote_body) (s : server) :
  disk (state (cast_vote e b s)) = disk s
  \/ disk (state (cast_vote e b s))
     = upsert_vote (vb_post_id b) (vb_user_id b) (vb_vote_type b) (disk s).
Proof.
  unfold cast_vote.
  destruct (getDb_frame e s) as (Hd & _).
  destruct (getDb e s) as [s1 [|]]; simpl in *; rewrite <- Hd; auto.
  destruct (throws e 0%nat); simpl; auto.
  destruct (throws e 1%nat); simpl; auto.
Qed.

Lemma create_report_disk (e : env) (b : report_body) (s : server) :
  disk (state (create_report e b s)) = disk s
  \/ disk (state (create_report e b s))
     = insert_report (rb_post_id b) (rb_user_id b) (rb_reason b) (disk s).
Proof.
  unfold create_report.
  destruct (getDb_frame e s) as (Hd & _).
  destruct (getDb e s) as [s1 [|]]; simpl in *; rewrite <- Hd; auto.
  destruct (throws e 0%nat); simpl; auto.
Qed.

Lemma serve_db_step (e : env) (rq : request) (s : server) :
  db_step (disk s) (disk (state (serve e rq s))).
Proof.
  destruct rq as [|b|b|b]; simpl.
  - rewrite list_posts_state. destruct (getDb_frame e s) as (-> & _).
    constructor.
  - destruct (create_post_disk e b s) as [->|[->|H]].
    + constructor.
    + constructor.
    + eapply step_post. exact H.
  - destruct (cast_vote_disk e b s) as [->| ->]; constructor.
  - destruct (create_report_disk e b s) as [->| ->]; constructor.
Qed.

(** ** The constraints of the schema along a run *)

Lemma posts_unique_snoc (ps : list Posts.row) (w : Posts.row) :
  posts_unique ps = true ->
  existsb (fun p => sql_eq (Posts.id p) (Posts.id w)) ps = false ->
  posts_unique (ps ++ [w]) = true.
Proof.
  induction ps as [|p ps IH]; simpl; intros Hu Hw; [reflexivity|].
  apply andb_true_iff in Hu as [Hfresh Hu].
  apply orb_false_iff in Hw as [Hv Hw].
  rewrite existsb_app. simpl. rewrite Hv, orb_false_r, Hfresh. simpl.
  now apply IH.
Qed.

Lemma update_conflicting_ids (pid uid : text) (vt : integer)
  (vs vs' : list Votes.row) :
  update_conflicting pid uid vt vs = Some vs' ->
  map vote_key vs' = map vote_key vs.
Proof.
  revert vs'. induction vs as [|v vs IH]; simpl; intros vs' H;
    [discriminate|].
  destruct (sql_eq (Votes.post_id v) pid && sql_eq (Votes.user_id v) uid).
  - now injection H as <-.
  - destruct (update_conflicting pid uid vt vs) as [ws|]; [|discriminate].
    injection H as <-. simpl. now rewrite (IH ws eq_refl).
Qed.

Lemma vote_key_id (vs : list Votes.row) :
  map Votes.id vs = map (fun k => fst (fst k)) (map vote_key vs).
Proof. rewrite map_map. reflexivity. Qed.

Lemma NoDup_snoc {A : Type} (l : list A) (x : A) :
  NoDup l -> ~ In x l -> NoDup (l ++ [x]).
Proof.
  intros Hl Hx.
  apply (Permutation_NoDup (Permutation_cons_append l x)).
  now constructor.
Qed.

Lemma upsert_vote_ids_ok (pid uid : text) (vt : integer) (d : database) :
  vote_ids_ok d -> vote_ids_ok (upsert_vote pid uid vt d).
Proof.
  intros [Hle Hnd]. unfold vote_ids_ok, upsert_vote.
  destruct (update_conflicting pid uid vt (votes d)) as [vs'|] eqn:E; simpl.
  - apply update_conflicting_ids in E.
    assert (Eid : map Votes.id vs' = map Votes.id (votes d))
      by (now rewrite !vote_key_id, E).
    split; [|now rewrite Eid].
    apply Forall_forall. intros v Hv.
    assert (Hin : In (Votes.id v) (map Votes.id (votes d)))
      by (rewrite <- Eid; now apply in_map).
    apply in_map_iff in Hin as (w & Hw & Hin). rewrite <- Hw.
    pose proof (proj1 (Forall_forall _ _) Hle w Hin) as L. simpl in L. lia.
  - split.
    + apply Forall_app. split.
      * eapply Forall_impl; [|exact Hle]. simpl. intros; lia.
      * repeat constructor. simpl. lia.
    + rewrite map_app. simpl.
      apply NoDup_snoc; [exact Hnd|].
      intros Hin. apply in_map_iff in Hin as (w & Hw & Hin).
      pose proof (proj1 (Forall_forall _ _) Hle w Hin) as L. simpl in L. lia.
Qed.

Lemma insert_report_ids_ok (pid uid reason : text) (d : database) :
  report_ids_ok d -> report_ids_ok (insert_report pid uid reason d).
Proof.
  intros [Hle Hnd]. unfold report_ids_ok, insert_report. simpl. split.
  - apply Forall_app. split.
    + eapply Forall_impl; [|exact Hle]. simpl. intros; lia.
    + repeat constructor. simpl. lia.
  - rewrite map_app. simpl.
    apply NoDup_snoc; [exact Hnd|].
    intros Hin. apply in_map_iff in Hin as (w & Hw & Hin).
    pose proof (proj1 (Forall_forall _ _) Hle w Hin) as L. simpl in L. lia.
Qed.

Lemma insert_or_ignore_user_constraints (uid : text) (nm : string)
  (d : database) :
  constraints d -> constraints (insert_or_ignore_user uid nm d).
Proof.
  intros (Hu & Hp & Hv & Hvi & Hri).
  pose proof (insert_or_ignore_user_unique uid nm d Hu) as Hu'.
  unfold insert_or_ignore_user in *.
  destruct (existsb _ (users d)); repeat split; auto; apply Hvi || apply Hri.
Qed.

Lemma insert_post_constraints (b : post_body) (ts : Z) (d d2 : database) :
  insert_post b ts d = Returned d2 -> constraints d -> constraints d2.
Proof.
  unfold insert_post.
  destruct (existsb (fun p => sql_eq (Posts.id p) (b_id b)) (posts d)) eqn:E;
    [discriminate|].
  intros H (Hu & Hp & Hv & Hvi & Hri). injection H as <-.
  repeat split; auto; try (apply Hvi || apply Hri).
  now apply posts_unique_snoc.
Qed.

Lemma db_step_constraints (d d' : database) :
  db_step d d' -> constraints d -> constraints d'.
Proof.
  intros [|uid nm|b ts uid nm d2 H|pid uid vt|pid uid reason] C.
  - exact C.
  - now apply insert_or_ignore_user_constraints.
  - eapply insert_post_constraints; [exact H|].
    now apply insert_or_ignore_user_constraints.
  - destruct C as (Hu & Hp & Hv & Hvi & Hri).
    pose proof (upsert_vote_unique pid uid vt d Hv) as Hv'.
    pose proof (upsert_vote_ids_ok pid uid vt d Hvi) as Hvi'.
    unfold constraints, report_ids_ok, upsert_vote in *.
    destruct (update_conflicting pid uid vt (votes d)); simpl in *; auto.
  - destruct C as (Hu & Hp & Hv & Hvi & Hri).
    pose proof (insert_report_ids_ok pid uid reason d Hri) as Hri'.
    unfold constraints, vote_ids_ok, insert_report in *. simpl in *. auto.
Qed.

(** The constraints of the schema (the primary keys of [users] and [posts],
    the uniqueness of the pair (post, user) in [votes], the distinct
    AUTOINCREMENT ids of votes and reports) hold after any run of requests,
    in any environment, on a database file on which they hold. *)
Theorem constraints_hold (tr : list (env * request)) (s : server) :
  constraints (disk s) -> constraints (disk (run tr s)).
Proof.
  revert s. induction tr as [|[e rq] tr IH]; simpl; intros s C; [exact C|].
  apply IH. eapply db_step_constraints; [apply serve_db_step|exact C].
Qed.

Lemma constraints_empty : constraints empty_database.
Proof.
  repeat split; simpl; constructor.
Qed.

Lemma constraints_hold_witness :
  constraints (disk (run busy_evening (fresh false))).
Proof.
  apply (constraints_hold busy_evening (fresh false)).
  exact constraints_empty.
Defined.

(** ** Nothing is deleted *)

Lemma grows_refl (d : database) : grows d d.
Proof. repeat split; exists []; now rewrite app_nil_r. Qed.

Lemma grows_trans (d1 d2 d3 : database) :
  grows d1 d2 -> grows d2 d3 -> grows d1 d3.
Proof.
  intros ([a1 A1] & [b1 B1] & [c1 C1] & [e1 E1])
         ([a2 A2] & [b2 B2] & [c2 C2] & [e2 E2]).
  repeat split.
  - exists (a1 ++ a2). now rewrite A2, A1, app_assoc.
  - exists (b1 ++ b2). now rewrite B2, B1, app_assoc.
  - exists (c1 ++ c2). now rewrite C2, C1, app_assoc.
  - exists (e1 ++ e2). now rewrite E2, E1, app_assoc.
Qed.

Lemma insert_or_ignore_user_grows (uid : text) (nm : string) (d : database) :
  grows d (insert_or_ignore_user uid nm d).
Proof.
  unfold insert_or_ignore_user.
  destruct (existsb _ (users d)); [apply grows_refl|].
  repeat split; simpl; try (exists []; now rewrite app_nil_r).
  now eexists.
Qed.

Lemma insert_post_grows (b : post_body) (ts : Z) (d d2 : database) :
  insert_post b ts d = Returned d2 -> grows d d2.
Proof.
  unfold insert_post. destruct (existsb _ (posts d)); [discriminate|].
  intros H. injection H as <-.
  repeat split; simpl; try (exists []; now rewrite app_nil_r).
  now eexists.
Qed.

Lemma upsert_vote_grows (pid uid : text) (vt : integer) (d : database) :
  grows d (upsert_vote pid uid vt d).
Proof.
  unfold upsert_vote.
  destruct (update_conflicting pid uid vt (votes d)) as [vs'|] eqn:E;
    repeat split; simpl; try (exists []; now rewrite app_nil_r).
  - exists []. rewrite app_nil_r. now apply update_conflicting_ids in E.
  - rewrite map_app. now eexists.
Qed.

Lemma insert_report_grows (pid uid reason : text) (d : database) :
  grows d (insert_report pid uid reason d).
Proof.
  repeat split; simpl; try (exists []; now rewrite app_nil_r).
  now eexists.
Qed.

Lemma db_step_grows (d d' : database) : db_step d d' -> grows d d'.
Proof.
  intros [|uid nm|b ts uid nm d2 H|pid uid vt|pid uid reason].
  - apply grows_refl.
  - apply insert_or_ignore_user_grows.
  - eapply grows_trans; [apply insert_or_ignore_user_grows|].
    eapply insert_post_grows. exact H.
  - apply upsert_vote_grows.
  - apply insert_report_grows.
Qed.

Lemma run_grows (tr : list (env * request)) (s : server) :
  grows (disk s) (disk (run tr s)).
Proof.
  revert s. induction tr as [|[e rq] tr IH]; simpl; intros s.
  - apply grows_refl.
  - eapply grows_trans; [|apply IH].
    apply db_step_grows, serve_db_step.
Qed.

(** No request deletes or rewrites a stored user, post or report, deletes a
    vote row or changes its post or user, or removes a fallback post: after
    any run the tables are the old ones with rows added at the end (votes
    differing at most in their values), and the fallback list is the old one
    with posts added at the front. *)
Theorem nothing_is_deleted (tr : list (env * request)) (s : server) :
  grows (disk s) (disk (run tr s))
  /\ exists newer, memoryPosts (run tr s) = newer ++ memoryPosts s.
Proof.
  split; [apply run_grows|apply run_memoryPosts].
Qed.

(** ** An accepted post is listed *)

Lemma same_post_select_row (p : Posts.row) (nm : text) (a b a' b' : Z) :
  same_post (select_row p nm a b) (select_row p nm a' b').
Proof. split; reflexivity. Qed.

Lemma left_join_users_grow
  (us more : list Users.row) (p : Posts.row) (a b a' b' : Z) (y : Post.t) :
  In y (left_join_users us p a b) ->
  Posts.user_id p = None
  \/ existsb (fun u => sql_eq (Posts.user_id p) (Users.id u)) us = true ->
  exists x, In x (left_join_users (us ++ more) p a' b') /\ same_post x y.
Proof.
  unfold left_join_users. intros Hy Hu. rewrite filter_app.
  destruct (filter (fun u => sql_eq (Posts.user_id p) (Users.id u)) us)
    as [|m ms] eqn:F.
  - destruct Hu as [Hn|Hex].
    + rewrite (filter_none _ more).
      * destruct Hy as [<-|[]]. eexists. split; [now left|].
        apply same_post_select_row.
      * rewrite Hn. now induction more.
    + apply existsb_exists in Hex as (u & Hin & Hm).
      assert (Hf : In u (filter
                           (fun u => sql_eq (Posts.user_id p) (Users.id u))
                           us)) by (apply filter_In; auto).
      now rewrite F in Hf.
  - apply in_map_iff in Hy as (u & <- & Hin).
    exists (select_row p (Users.name u) a' b'). split.
    + change (In (select_row p (Users.name u) a' b')
                (map (fun u => select_row p (Users.name u) a' b')
                   ((m :: ms)
                    ++ filter (fun u => sql_eq (Posts.user_id p)
                                          (Users.id u)) more))).
      apply (in_map (fun u => select_row p (Users.name u) a' b')).
      apply in_or_app. now left.
    + apply same_post_select_row.
Qed.

Lemma try_db_first_some (e : env) (b : post_body) (h : handle) (s : server)
  (y : Post.t) :
  snd (try_db_first e b h s) = Some y ->
  h = RealDatabase
  /\ insert_post b (current_timestamp e)
       (insert_or_ignore_user (b_user_id b) "Anonymous User" (disk s))
     = Returned (disk (fst (try_db_first e b h s)))
  /\ select_new_post (b_id b) (disk (fst (try_db_first e b h s))) = Some y.
Proof.
  unfold try_db_first. destruct h; simpl; [|discriminate].
  destruct (throws e 0%nat); simpl; [discriminate|].
  destruct (throws e 1%nat); simpl; [discriminate|].
  destruct (insert_post _ _ _) as [d2|]; simpl; [|discriminate].
  destruct (throws e 2%nat); simpl; [discriminate|auto].
Qed.

(** The row read back after a successful insert is found again, with the
    same user name, in every later list of a database that has only grown. *)
Lemma select_new_post_stable
  (b : post_body) (ts : Z) (d d2 d3 : database) (y : Post.t) :
  insert_post b ts (insert_or_ignore_user (b_user_id b) "Anonymous User" d)
  = Returned d2 ->
  select_new_post (b_id b) d2 = Some y ->
  grows d2 d3 ->
  exists x, In x (select_posts d3) /\ same_post x y.
Proof.
  intros Hins Hsel ([mu Hu] & [mp Hp] & _).
  set (d1 := insert_or_ignore_user (b_user_id b) "Anonymous User" d) in *.
  destruct (insert_post_returned _ _ _ _ Hins) as [Hus Hps].
  unfold insert_post in Hins.
  destruct (existsb (fun p => sql_eq (Posts.id p) (b_id b)) (posts d1)) eqn:E;
    [discriminate|]. clear Hins.
  unfold select_new_post in Hsel.
  assert (Hy : In y (flat_map (fun p => left_join_users (users d2) p 0 0)
                       (filter (fun p => sql_eq (Posts.id p) (b_id b))
                               (posts d2)))).
  { destruct (flat_map _ _); [discriminate|].
    injection Hsel as ->. now left. }
  apply in_flat_map in Hy as (p & Hpin & Hy).
  apply filter_In in Hpin as [Hpin Hpid].
  rewrite Hps in Hpin. apply in_app_or in Hpin as [Hold|[<-|[]]].
  { assert (X : existsb (fun p => sql_eq (Posts.id p) (b_id b)) (posts d1)
                = true) by (apply existsb_exists; eauto).
    congruence. }
  set (new := Posts.mk _ _ _ _ _ _ _ _) in *.
  assert (Hnew : In new (posts d3)).
  { rewrite Hp, Hps. apply in_or_app. left. apply in_or_app. right.
    now left. }
  assert (Huser : Posts.user_id new = None
                  \/ existsb (fun u => sql_eq (Posts.user_id new)
                                         (Users.id u)) (users d2) = true).
  { simpl. destruct (b_user_id b) as [uid|] eqn:Eu; [right|now left].
    destruct (insert_or_ignore_user_present (Some uid) "Anonymous User" d)
      as (usr & Hin & Hid).
    apply existsb_exists. exists usr. rewrite Hus. unfold d1.
    split; [exact Hin|]. rewrite Hid. apply sql_eq_refl. }
  destruct (left_join_users_grow (users d2) mu new 0 0
              (count_votes (votes d3) (Posts.id new) 1)
              (count_votes (votes d3) (Posts.id new) 0) y Hy Huser)
    as (x & Hx & Hsame).
  exists x. split; [|exact Hsame].
  unfold select_posts.
  apply (Permutation_in _ (order_by_created_at_desc_perm _)).
  apply in_flat_map. exists new. split; [exact Hnew|].
  now rewrite Hu.
Qed.

(** A post that was answered 201 is in every later list whose query does
    not throw, whatever requests came in between: the list has a record of
    the same post (the same fields and user name as the record of the 201
    reply; the tallies are those of the list). *)
Theorem accepted_post_is_listed
  (e : env) (b : post_body) (s : server) (tr : list (env * request))
  (e2 : env) :
  falsy (b_place_name b) = false ->
  throws e2 0%nat = false ->
  let r := create_post e b s in
  exists y x,
    reply r = mkResponse 201 (JPost y)
    /\ In x (listed (reply (list_posts e2 (run tr (state r)))))
    /\ same_post x y.
Proof.
  intros Hb Ht r.
  pose proof (create_post_valid e b s Hb) as V. simpl in V. fold r in V.
  set (t := try_db_first e b (snd (getDb e s)) (fst (getDb e s))) in *.
  pose proof (run_grows tr (state r)) as Hg.
  destruct (run_memoryPosts tr (state r)) as [newer Hm].
  destruct (list_posts_reply e2 (run tr (state r)))
    as (stored & Hrep & _ & _ & Hst).
  rewrite Hrep. unfold listed. simpl.
  destruct (snd t) as [y|] eqn:Et.
  - destruct V as (Hs & Hr & _). exists y.
    destruct (try_db_first_some e b _ _ y Et) as (Hh & Hins & Hsel).
    fold t in Hins, Hsel. rewrite <- Hs in Hins, Hsel.
    destruct (getDb_frame e s) as (Hd & _). rewrite Hd in Hins.
    destruct (select_new_post_stable b _ _ _ _ y Hins Hsel Hg)
      as (x & Hx & Hsame).
    exists x. split; [exact Hr|]. split; [|exact Hsame].
    apply in_or_app. left. rewrite Hst; [exact Hx| |exact Ht].
    unfold uses_real.
    rewrite (getDb_cached e2 _ RealDatabase); [reflexivity|].
    apply run_db. unfold r. rewrite create_post_db. now rewrite Hh.
  - destruct V as (Hs & Hr & _). exists (memPost e b), (memPost e b).
    split; [exact Hr|]. split; [|split; reflexivity].
    apply in_or_app. right. rewrite Hm, Hs. apply in_or_app. right.
    now left.
Qed.

Lemma accepted_post_is_listed_witness :
  exists y x,
    reply (create_post quiet test_mosque (fresh false))
    = mkResponse 201 (JPost y)
    /\ In x (listed (reply (list_posts quiet
                              (run busy_evening
                                 (state (create_post quiet test_mosque
                                           (fresh false)))))))
    /\ same_post x y.
Proof.
  apply (accepted_post_is_listed quiet test_mosque (fresh false)
           busy_evening quiet); reflexivity.
Defined.

(** ** Repeated votes *)

Lemma update_conflicting_again (pid uid : text) (vt : integer)
  (vs vs' : list Votes.row) :
  update_conflicting pid uid vt vs = Some vs' ->
  update_conflicting pid uid vt vs' = Some vs'.
Proof.
  revert vs'. induction vs as [|v vs IH]; simpl; intros vs' H;
    [discriminate|].
  destruct (sql_eq (Votes.post_id v) pid && sql_eq (Votes.user_id v) uid)
    eqn:E.
  - injection H as <-. simpl. now rewrite E.
  - destruct (update_conflicting pid uid vt vs) as [ws|]; [|discriminate].
    injection H as <-. simpl. now rewrite E, (IH ws eq_refl).
Qed.

Lemma update_conflicting_snoc (p u : string) (vt : integer) (i : Z)
  (vs : list Votes.row) :
  update_conflicting (Some p) (Some u) vt vs = None ->
  update_conflicting (Some p) (Some u) vt
    (vs ++ [Votes.mk i (Some p) (Some u) vt])
  = Some (vs ++ [Votes.mk i (Some p) (Some u) vt]).
Proof.
  induction vs as [|v vs IH]; simpl.
  - intros _. now rewrite !String.eqb_refl.
  - destruct (sql_eq (Votes.post_id v) (Some p)
              && sql_eq (Votes.user_id v) (Some u)); [discriminate|].
    destruct (update_conflicting (Some p) (Some u) vt vs); [discriminate|].
    intros _. now rewrite IH.
Qed.

Lemma upsert_vote_again (p u : string) (vt : integer) (d : database) :
  let d1 := upsert_vote (Some p) (Some u) vt d in
  let d2 := upsert_vote (Some p) (Some u) vt d1 in
  votes d2 = votes d1 /\ users d2 = users d1 /\ posts d2 = posts d1
  /\ reports d2 = reports d1 /\ votes_seq d2 = votes_seq d1 + 1.
Proof.
  unfold upsert_vote.
  destruct (update_conflicting (Some p) (Some u) vt (votes d)) as [vs'|]
    eqn:E; cbn [votes].
  - rewrite (update_conflicting_again _ _ _ _ _ E). simpl. auto.
  - rewrite (update_conflicting_snoc p u vt _ _ E). simpl. auto.
Qed.

(** The same vote sent twice is the vote sent once, the counter aside: the
    second request leaves the rows of every table, and the fallback list,
    as the first left them, and gets the same reply; only the
    AUTOINCREMENT counter of [votes] advances, so that the next new vote
    row skips an id. *)
Theorem same_vote_twice (e1 e2 : env) (s : server) (p u : string)
  (vt : integer) :
  uses_real e1 s = true -> healthy e1 -> healthy e2 ->
  let b := mkVoteBody (Some p) (Some u) vt in
  let r1 := cast_vote e1 b s in
  let r2 := cast_vote e2 b (state r1) in
  votes (disk (state r2)) = votes (disk (state r1))
  /\ users (disk (state r2)) = users (disk (state r1))
  /\ posts (disk (state r2)) = posts (disk (state r1))
  /\ reports (disk (state r2)) = reports (disk (state r1))
  /\ memoryPosts (state r2) = memoryPosts (state r1)
  /\ votes_seq (disk (state r2)) = votes_seq (disk (state r1)) + 1
  /\ reply r2 = reply r1.
Proof.
  intros Hr H1 H2 b r1 r2.
  destruct (cast_vote_healthy e1 b s Hr H1) as (Hd1 & Hdb1 & _ & _ & Hrep1 & _).
  fold r1 in Hd1, Hdb1, Hrep1.
  assert (Hr2 : uses_real e2 (state r1) = true).
  { unfold uses_real, getDb. now rewrite Hdb1. }
  destruct (cast_vote_healthy e2 b (state r1) Hr2 H2)
    as (Hd2 & _ & Hm2 & _ & Hrep2 & _).
  fold r2 in Hd2, Hm2, Hrep2.
  destruct (upsert_vote_again p u vt (disk s)) as (Ev & Eu & Ep & Er & Es).
  simpl in Hd1, Hd2. rewrite <- Hd1 in Ev, Eu, Ep, Er, Es.
  rewrite <- Hd2 in Ev, Eu, Ep, Er, Es.
  repeat split; try assumption.
  rewrite Hrep2, Hrep1. simpl. unfold select_stats.
  rewrite <- Hd2, <- Hd1. now rewrite Ev.
Qed.

Lemma same_vote_twice_witness :
  let r1 := cast_vote quiet (vote "post_1" "user_1" 1) (fresh false) in
  let r2 := cast_vote quiet (vote "post_1" "user_1" 1) (state r1) in
  votes (disk (state r2)) = votes (disk (state r1))
  /\ reply r2 = reply r1.
Proof.
  destruct (same_vote_twice quiet quiet (fresh false) "post_1" "user_1"
              (Some 1) eq_refl healthy_quiet healthy_quiet)
    as (Hv & _ & _ & _ & _ & _ & Hr).
  split; [exact Hv|exact Hr].
Defined.

Lemma sql_eq_null (a : text) : sql_eq a None = false.
Proof. now destruct a. Qed.

Lemma update_conflicting_null_user (pid : text) (vt : integer)
  (vs : list Votes.row) :
  update_conflicting pid None vt vs = None.
Proof.
  induction vs as [|v vs IH]; simpl; [reflexivity|].
  now rewrite sql_eq_null, andb_false_r, IH.
Qed.

(** A vote whose [user_id] is missing is never an overwrite: the
    uniqueness constraint does not apply to a NULL user, so every such vote
    adds a row, and a row of value [k] on post [p] raises the count of the
    votes of value [k] on [p] by one each time. *)
Theorem votes_without_user_accumulate (e : env) (s : server)
  (pid : text) (vt : integer) :
  uses_real e s = true -> healthy e ->
  let r := cast_vote e (mkVoteBody pid None vt) s in
  votes (disk (state r))
  = votes (disk s) ++ [Votes.mk (votes_seq (disk s) + 1) pid None vt]
  /\ forall p k, pid = Some p ->
       count_votes (votes (disk (state r))) (Some p) k
       = count_votes (votes (disk s)) (Some p) k + counts_as vt k.
Proof.
  intros Hr Hh r.
  destruct (cast_vote_healthy e (mkVoteBody pid None vt) s Hr Hh)
    as (Hd & _).
  fold r in Hd. simpl in Hd.
  assert (E : votes (disk (state r))
              = votes (disk s)
                ++ [Votes.mk (votes_seq (disk s) + 1) pid None vt]).
  { rewrite Hd. unfold upsert_vote.
    now rewrite update_conflicting_null_user. }
  split; [exact E|]. intros p k ->. rewrite E.
  unfold count_votes, counts_as. rewrite filter_app, length_app.
  simpl. rewrite String.eqb_refl. simpl.
  destruct (sql_eq_int vt k); simpl; lia.
Qed.

Lemma votes_without_user_accumulate_witness :
  let b := mkVoteBody (Some "post_1") None (Some 1) in
  let r1 := cast_vote quiet b (fresh false) in
  let r2 := cast_vote quiet b (state r1) in
  count_votes (votes (disk (state r2))) (Some "post_1") 1
  = count_votes (votes (disk (state r1))) (Some "post_1") 1 + 1.
Proof.
  intros b r1 r2.
  exact (proj2 (votes_without_user_accumulate quiet (state r1)
                  (Some "post_1") (Some 1) eq_refl healthy_quiet)
               "post_1" 1 eq_refl).
Defined.

(** ** Reports *)

(** Reports are appended as they come: two reports on a working store,
    identical or not, about a post that exists or not, are both answered
    201 and leave two rows with consecutive ids; nothing else is written
    and nothing is sent on the socket. *)
Theorem reports_are_appended (e1 e2 : env) (b1 b2 : report_body) (s : server) :
  uses_real e1 s = true ->
  throws e1 0%nat = false -> throws e2 0%nat = false ->
  let r1 := create_report e1 b1 s in
  let r2 := create_report e2 b2 (state r1) in
  let n := reports_seq (disk s) in
  reply r1 = mkResponse 201 JSuccess
  /\ reply r2 = mkResponse 201 JSuccess
  /\ reports (disk (state r2))
     = reports (disk s)
       ++ [Reports.mk (n + 1) (rb_post_id b1) (rb_user_id b1) (rb_reason b1);
           Reports.mk (n + 2) (rb_post_id b2) (rb_user_id b2) (rb_reason b2)]
  /\ users (disk (state r2)) = users (disk s)
  /\ posts (disk (state r2)) = posts (disk s)
  /\ votes (disk (state r2)) = votes (disk s)
  /\ memoryPosts (state r2) = memoryPosts s
  /\ emitted r1 ++ emitted r2 = [].
Proof.
  intros Hr H1 H2 r1 r2 n.
  assert (S1 : state r1
               = with_disk (fst (getDb e1 s))
                   (insert_report (rb_post_id b1) (rb_user_id b1)
                      (rb_reason b1) (disk s))
               /\ reply r1 = mkResponse 201 JSuccess /\ emitted r1 = []).
  { unfold r1, create_report. open_db e1 s; rewrite H1; auto. }
  destruct S1 as (S1 & R1 & E1).
  destruct (getDb_frame e1 s) as (_ & Hm & _ & Hdb).
  rewrite (uses_real_handle e1 s Hr) in Hdb.
  assert (Hdb1 : db (state r1) = Some RealDatabase) by (now rewrite S1).
  assert (S2 : state r2
               = with_disk (state r1)
                   (insert_report (rb_post_id b2) (rb_user_id b2)
                      (rb_reason b2) (disk (state r1)))
               /\ reply r2 = mkResponse 201 JSuccess /\ emitted r2 = []).
  { unfold r2, create_report.
    rewrite (getDb_cached e2 _ _ Hdb1), H2. auto. }
  destruct S2 as (S2 & R2 & E2).
  rewrite S2, S1, E1, E2. simpl. rewrite <- app_assoc. simpl.
  unfold n. replace (reports_seq (disk s) + 1 + 1)
    with (reports_seq (disk s) + 2) by lia.
  rewrite Hm. auto 10.
Qed.

Lemma reports_are_appended_witness :
  let b := mkReportBody (Some "no-such-post") (Some "user_1")
                        (Some "wrong place") in
  map Reports.id
      (reports (disk (state (create_report quiet b
                               (state (create_report quiet b
                                         (fresh false)))))))
  = [1; 2].
Proof.
  intros b.
  destruct (reports_are_appended quiet quiet b b (fresh false)
              eq_refl eq_refl eq_refl) as (_ & _ & H & _).
  rewrite H. reflexivity.
Defined.

(** * The client and the broadcast *)

Lemma upsert_vote_other_posts (p : string) (uid : text) (vt : integer)
  (d : database) (f : Votes.row -> bool) :
  (forall v, sql_eq (Votes.post_id v) (Some p) = true -> f v = false) ->
  filter f (votes (upsert_vote (Some p) uid vt d)) = filter f (votes d).
Proof.
  intros Hf. unfold upsert_vote.
  destruct (update_conflicting (Some p) uid vt (votes d)) as [vs'|] eqn:E;
    simpl.
  - revert vs' E. induction (votes d) as [|v vs IH]; simpl; intros vs' E;
      [discriminate|].
    destruct (sql_eq (Votes.post_id v) (Some p)) eqn:Ep; simpl in E.
    + destruct (sql_eq (Votes.user_id v) uid).
      * injection E as <-. simpl.
        rewrite (Hf v Ep), (Hf (Votes.mk _ _ _ vt)); [reflexivity|exact Ep].
      * destruct (update_conflicting (Some p) uid vt vs) as [ws|];
          [|discriminate].
        injection E as <-. simpl. now rewrite (IH ws eq_refl).
    + destruct (update_conflicting (Some p) uid vt vs) as [ws|];
        [|discriminate].
      injection E as <-. simpl. now rewrite (IH ws eq_refl).
  - rewrite filter_app. simpl.
    rewrite (Hf (Votes.mk _ (Some p) uid vt)) by apply sql_eq_refl.
    apply app_nil_r.
Qed.

Lemma count_votes_other_post (p : string) (uid : text) (vt : integer)
  (d : database) (q : text) (k : Z) :
  sql_eq q (Some p) = false ->
  count_votes (votes (upsert_vote (Some p) uid vt d)) q k
  = count_votes (votes d) q k.
Proof.
  intros Hq. unfold count_votes.
  rewrite upsert_vote_other_posts; [reflexivity|].
  intros v Hv. apply sql_eq_some in Hv. rewrite Hv.
  now rewrite sql_eq_sym, Hq.
Qed.

Lemma map_insert_desc (h : Post.t -> Post.t) (x : Post.t) (l : list Post.t) :
  (forall y, Post.created_at (h y) = Post.created_at y) ->
  map h (insert_desc x l) = insert_desc (h x) (map h l).
Proof.
  intros Hh. induction l as [|y l IH]; simpl; [reflexivity|].
  rewrite !Hh. destruct (Post.created_at y <=? Post.created_at x); simpl;
    [reflexivity|now rewrite IH].
Qed.

Lemma map_order_by_created_at_desc (h : Post.t -> Post.t) (l : list Post.t) :
  (forall y, Post.created_at (h y) = Post.created_at y) ->
  map h (order_by_created_at_desc l) = order_by_created_at_desc (map h l).
Proof.
  intros Hh. induction l as [|x l IH]; simpl; [reflexivity|].
  now rewrite map_insert_desc, IH.
Qed.

Lemma map_left_join_users (h : Post.t -> Post.t) (us : list Users.row)
  (q : Posts.row) (a b a' b' : Z) :
  (forall nm, h (select_row q nm a b) = select_row q nm a' b') ->
  map h (left_join_users us q a b) = left_join_users us q a' b'.
Proof.
  intros Hh. unfold left_join_users.
  destruct (filter (fun u => sql_eq (Posts.user_id q) (Users.id u)) us)
    as [|m ms]; simpl; [now rewrite Hh|].
  rewrite Hh, map_map. f_equal. apply map_ext. intros u. apply Hh.
Qed.

Lemma uses_real_opened (e : env) (s : server) :
  db s = Some RealDatabase -> uses_real e s = true.
Proof. unfold uses_real, getDb. now intros ->. Qed.

Lemma on_post_voted_app (u : Client.VoteUpdate) (a b : list Post.t) :
  Client.on_post_voted u (a ++ b)
  = Client.on_post_voted u a ++ Client.on_post_voted u b.
Proof. apply map_app. Qed.

(** Applying the event of a vote to the stored posts as listed before the
    vote gives the stored posts as listed after it. *)
Lemma vote_event_syncs_stored
  (d : database) (p : string) (uid : text) (vt : integer) :
  let d' := upsert_vote (Some p) uid vt d in
  Client.on_post_voted
    (Client.mkVoteUpdate p (count_votes (votes d') (Some p) 1)
                         (count_votes (votes d') (Some p) 0))
    (select_posts d)
  = select_posts d'.
Proof.
  intros d'. unfold Client.on_post_voted, select_posts. simpl.
  rewrite map_order_by_created_at_desc.
  2:{ intros y. now destruct (Client.id_is y p). }
  f_equal.
  assert (Hu : users d' = users d /\ posts d' = posts d).
  { unfold d', upsert_vote.
    now destruct (update_conflicting _ _ _ _). }
  destruct Hu as [-> ->].
  induction (posts d) as [|q qs IH]; simpl; [reflexivity|].
  rewrite map_app, IH. f_equal.
  apply map_left_join_users. intros nm.
  unfold Client.id_is. simpl.
  destruct (Posts.id q) as [i|] eqn:Ei.
  - destruct (String.eqb_spec i p) as [->|Hne].
    + reflexivity.
    + unfold d'. rewrite !count_votes_other_post; [now destruct q| |].
      * simpl. now apply String.eqb_neq.
      * simpl. now apply String.eqb_neq.
  - unfold d'. rewrite !count_votes_other_post by reflexivity.
    now destruct q.
Qed.

(** The [post:voted] event keeps a connected client in step with the
    server.  When a vote succeeds on a server that has its socket, it emits
    one event, a [VoteUpdate].  A client that fetched the list before the
    vote and applies the event holds exactly the list a new fetch returns,
    provided no fallback post has the id of the voted post (the client
    would overwrite its tallies, the server keeps them). *)
Theorem vote_event_syncs_client
  (e e1 e2 : env) (s : server) (p : string) (uid : text) (vt : integer) :
  db s = Some RealDatabase -> healthy e -> ioInstance s = true ->
  throws e1 0%nat = false -> throws e2 0%nat = false ->
  existsb (fun x => Client.id_is x p) (memoryPosts s) = false ->
  let r := cast_vote e (mkVoteBody (Some p) uid vt) s in
  exists u,
    map (fun ev => (fst ev, vote_update (snd ev))) (emitted r)
    = [("post:voted", Some u)]
    /\ Client.on_post_voted u (listed (reply (list_posts e1 s)))
       = listed (reply (list_posts e2 (state r))).
Proof.
  intros Hopen Hh Hio H1 H2 Hmem r.
  destruct (cast_vote_healthy e (mkVoteBody (Some p) uid vt) s
              (uses_real_opened e s Hopen) Hh)
    as (Hd & Hdb & Hm & _ & _ & Hem).
  fold r in Hd, Hdb, Hm, Hem. simpl in Hd, Hem. rewrite Hio in Hem.
  set (d' := upsert_vote (Some p) uid vt (disk s)) in *.
  exists (Client.mkVoteUpdate p (count_votes (votes d') (Some p) 1)
                              (count_votes (votes d') (Some p) 0)).
  split; [now rewrite Hem|].
  destruct (list_posts_reply e1 s) as (st1 & -> & _ & _ & Hst1).
  destruct (list_posts_reply e2 (state r)) as (st2 & -> & _ & _ & Hst2).
  rewrite (Hst1 (uses_real_opened e1 s Hopen) H1).
  rewrite (Hst2 (uses_real_opened e2 (state r) Hdb) H2).
  unfold listed. simpl. rewrite Hd, Hm.
  pose proof (vote_event_syncs_stored (disk s) p uid vt) as S.
  cbv zeta in S. fold d' in S.
  rewrite on_post_voted_app, S. f_equal.
  rewrite <- (map_id (memoryPosts s)) at 2. apply map_ext_in.
  intros x Hx. simpl.
  assert (E : Client.id_is x p = false).
  { destruct (Client.id_is x p) eqn:E; [|reflexivity].
    assert (X : existsb (fun x => Client.id_is x p) (memoryPosts s) = true)
      by (apply existsb_exists; eauto).
    congruence. }
  now rewrite E.
Qed.

Lemma vote_event_syncs_client_witness :
  let s := state (create_post quiet test_mosque (fresh false)) in
  let r := cast_vote quiet (vote "post_1" "user_1" 1) s in
  exists u,
    map (fun ev => (fst ev, vote_update (snd ev))) (emitted r)
    = [("post:voted", Some u)]
    /\ Client.on_post_voted u (listed (reply (list_posts quiet s)))
       = listed (reply (list_posts quiet (state r))).
Proof.
  intros s r.
  apply (vote_event_syncs_client quiet quiet quiet s "post_1"
           (Some "user_1") (Some 1));
    try reflexivity.
  exact healthy_quiet.
Defined.

Lemma id_is_with_votes (x : Post.t) (a b : Z) (p : string) :
  Client.id_is (Client.with_votes x a b) p = Client.id_is x p.
Proof. reflexivity. Qed.

(** On the client the event replaces the optimistic guess: applying a
    [VoteUpdate] after the optimistic update of [handleVote] on the same
    post gives what the event alone gives, so the vote is not counted
    twice; applying the event a second time changes nothing; and neither
    update adds, removes or reorders posts. *)
Theorem event_replaces_optimistic_update
  (u : Client.VoteUpdate) (type : Z) (prev : list Post.t) :
  Client.on_post_voted u (Client.handleVote (Client.post_id u) type prev)
  = Client.on_post_voted u prev
  /\ Client.on_post_voted u (Client.on_post_voted u prev)
     = Client.on_post_voted u prev
  /\ map row_of (Client.on_post_voted u prev) = map row_of prev
  /\ map row_of (Client.handleVote (Client.post_id u) type prev)
     = map row_of prev.
Proof.
  unfold Client.on_post_voted, Client.handleVote.
  rewrite !map_map. repeat split; apply map_ext; intros x; cbv beta;
    destruct (Client.id_is x (Client.post_id u)) eqn:E;
    rewrite ?id_is_with_votes, ?E; reflexivity.
Qed.

(** * Starting the server *)

Lemma startServer_cached (production : bool) (g : Startup.globals) (a : nat) :
  Startup.appInstance g = Some a ->
  Startup.startServer production g
  = (g, Startup.mkStarted a (Startup.httpServerInstance g)
                          (Some (Startup.ioInstance g)), []).
Proof. unfold Startup.startServer. now intros ->. Qed.

Lemma startServer_first (production : bool) (g : Startup.globals) :
  Startup.appInstance g = None ->
  Startup.appInstance (fst (fst (Startup.startServer production g)))
  = Some (Startup.created g)
  /\ Startup.app (snd (fst (Startup.startServer production g)))
     = Startup.created g.
Proof. unfold Startup.startServer. now intros ->. Qed.

Lemma serve_plain_started (production : bool) (reqs : list nat)
  (g : Startup.globals) (a : nat) :
  Startup.appInstance g = Some a ->
  Startup.serve_plain production reqs g
  = (g, map (Startup.Dispatch a) reqs).
Proof.
  intros H. induction reqs as [|r reqs IH]; simpl; [reflexivity|].
  unfold Startup.api_plain. rewrite (startServer_cached production g a H).
  now rewrite IH.
Qed.

Lemma serve_cached_started (production : bool) (reqs : list nat)
  (g : Startup.globals) (a : nat) :
  Startup.serve_cached production reqs (Some a) g
  = (g, map (Startup.Dispatch a) reqs).
Proof.
  induction reqs as [|r reqs IH]; simpl; [reflexivity|]. now rewrite IH.
Qed.

(** The two entry files behave alike: the handler that calls [startServer]
    on every request and the handler that keeps the app in [cachedApp]
    perform the same effects, in the same order, on any sequence of
    requests, and leave the module variables in the same state. *)
Theorem entry_handlers_agree
  (production : bool) (reqs : list nat) (g : Startup.globals) :
  Startup.serve_cached production reqs (Startup.appInstance g) g
  = Startup.serve_plain production reqs g.
Proof.
  destruct (Startup.appInstance g) as [a|] eqn:E.
  - now rewrite serve_cached_started, (serve_plain_started _ _ _ a E).
  - destruct reqs as [|r reqs]; simpl; [reflexivity|].
    unfold Startup.api_plain.
    destruct (startServer_first production g E) as [Ha Hb].
    destruct (Startup.startServer production g) as [[g' st] fx].
    simpl in Ha, Hb.
    now rewrite serve_cached_started, (serve_plain_started _ _ _ _ Ha), Hb.
Qed.

Lemma filter_dispatch (f : Startup.effect -> bool) (a : nat) (l : list nat) :
  (forall a q, f (Startup.Dispatch a q) = false) ->
  filter f (map (Startup.Dispatch a) l) = [].
Proof.
  intros Hf. induction l as [|q qs IH]; simpl; [reflexivity|].
  rewrite Hf. exact IH.
Qed.

(** However many requests come in, the server is built once: the first
    request runs [startServer] in full (one [express()], one [listen]) and
    every request, the first included, is dispatched to that one app. *)
Theorem server_is_built_once
  (production : bool) (r : nat) (reqs : list nat) (g : Startup.globals) :
  Startup.appInstance g = None ->
  let fx := snd (Startup.serve_plain production (r :: reqs) g) in
  fx = snd (Startup.startServer production g)
       ++ map (Startup.Dispatch (Startup.created g)) (r :: reqs)
  /\ filter Startup.is_express fx = [Startup.Express (Startup.created g)]
  /\ filter Startup.is_listen fx
     = [Startup.Listen (S (Startup.created g)) 3000].
Proof.
  intros E fx.
  assert (F : fx = snd (Startup.startServer production g)
                   ++ map (Startup.Dispatch (Startup.created g)) (r :: reqs)).
  { unfold fx. simpl. unfold Startup.api_plain.
    destruct (startServer_first production g E) as [Ha Hb].
    destruct (Startup.startServer production g) as [[g' st] fx'].
    simpl in Ha, Hb. rewrite (serve_plain_started _ _ _ _ Ha), Hb.
    simpl. now rewrite <- app_assoc. }
  split; [exact F|]. rewrite F. unfold Startup.startServer. rewrite E.
  rewrite !filter_app.
  rewrite !filter_dispatch by reflexivity.
  destruct production; split; reflexivity.
Qed.

Lemma server_is_built_once_witness :
  filter Startup.is_listen
         (snd (Startup.serve_plain true [1; 2; 3]%nat Startup.initial))
  = [Startup.Listen 1 3000].
Proof.
  exact (proj2 (proj2 (server_is_built_once true 1 [2; 3]%nat
                         Startup.initial eq_refl))).
Defined.

(** Loading the module outside production starts the server and then calls
    [listen] a second time on the same http server; in production loading
    the module starts nothing. *)
Theorem load_listens_twice (production : bool) (g : Startup.globals) :
  Startup.appInstance g = None ->
  filter Startup.is_listen (snd (Startup.load production g))
  = if production then []
    else [Startup.Listen (S (Startup.created g)) 3000;
          Startup.Listen (S (Startup.created g)) 3000].
Proof.
  intros E. unfold Startup.load, Startup.startServer. rewrite E.
  destruct production; reflexivity.
Qed.

Lemma load_listens_twice_witness :
  filter Startup.is_listen (snd (Startup.load false Startup.initial))
  = [Startup.Listen 1 3000; Startup.Listen 1 3000].
Proof.
  exact (load_listens_twice false Startup.initial eq_refl).
Defined.

(** * The earlier variant *)

(** The create-post handler of the earlier variant refuses nothing and
    loses nothing: every request is answered 201, and afterwards the post of
    the body is a row of [posts] or the first post of the fallback list. *)
Theorem earlier_keeps_every_post (e : env) (b : post_body)
  (s : Earlier.server) :
  let r := Earlier.create_post e b s in
  status (Earlier.reply r) = 201
  /\ (In (Posts.mk (b_id b) (b_user_id b) (b_place_name b) (b_description b)
                   (b_lat b) (b_lng b) (b_distribution_time b)
                   (current_timestamp e))
         (posts (Earlier.disk (Earlier.state r)))
      \/ Earlier.memoryPosts (Earlier.state r)
         = memPost e b :: Earlier.memoryPosts s).
Proof.
  intros r. split; [apply earlier_create_post_status|].
  unfold r, Earlier.create_post, Earlier.try_db.
  destruct (throws e 0%nat); simpl; [now right|].
  destruct (throws e 1%nat); simpl; [now right|].
  destruct (insert_post b (current_timestamp e) _) as [d2|] eqn:E; simpl;
    [|now right].
  apply insert_post_returned in E as [_ Hp].
  destruct (throws e 2%nat); simpl; left; rewrite Hp; apply in_or_app;
    right; now left.
Qed.

(** With its database open for real, the server of [server.ts] answers as
    the earlier variant did: the same reply, events and data for a list, for
    a vote, for a post that has a place name and an id, and for a report
    whose insert does not throw. *)
Theorem later_agrees_with_earlier (e : env) (s : server) :
  db s = Some RealDatabase ->
  agrees (EarlierRoutes.list_posts e (earlier_view s)) (list_posts e s)
  /\ (forall b,
        agrees (EarlierRoutes.cast_vote e b (earlier_view s))
               (cast_vote e b s))
  /\ (forall b i,
        falsy (b_place_name b) = false -> b_id b = Some i ->
        agrees (Earlier.create_post e b (earlier_view s))
               (create_post e b s))
  /\ (forall b,
        throws e 0%nat = false ->
        exists r',
          EarlierRoutes.create_report e b (earlier_view s) = Returned r'
          /\ agrees r' (create_report e b s)).
Proof.
  intros H. unfold agrees, earlier_view. split; [|split; [|split]].
  - unfold EarlierRoutes.list_posts, list_posts.
    rewrite (getDb_cached e s _ H).
    destruct (throws e 0%nat); simpl; auto.
  - intros b. unfold EarlierRoutes.cast_vote, cast_vote.
    rewrite (getDb_cached e s _ H). simpl.
    destruct (throws e 0%nat); simpl; auto.
    destruct (throws e 1%nat); simpl; auto.
  - intros b i Hb Hi. unfold Earlier.create_post, create_post.
    rewrite (getDb_cached e s _ H), Hb.
    unfold Earlier.try_db, try_db_first. simpl.
    destruct (throws e 0%nat); simpl; auto.
    destruct (throws e 1%nat); simpl; auto.
    destruct (insert_post b (current_timestamp e) _) as [d2|] eqn:E; simpl;
      auto.
    destruct (throws e 2%nat); simpl; auto.
    destruct (select_new_post_fresh b _ _ d2 i Hi E) as (x & -> & _).
    simpl. auto.
  - intros b Ht. unfold EarlierRoutes.create_report, create_report.
    rewrite (getDb_cached e s _ H), Ht. simpl. eexists. split; [reflexivity|].
    simpl. auto.
Qed.

Lemma later_agrees_with_earlier_witness :
  let s := state (create_post quiet test_mosque (fresh false)) in
  agrees (EarlierRoutes.cast_vote quiet (vote "post_1" "user_1" 1)
            (earlier_view s))
         (cast_vote quiet (vote "post_1" "user_1" 1) s).
Proof.
  intros s.
  destruct (later_agrees_with_earlier quiet s eq_refl) as (_ & Hv & _).
  exact (Hv (vote "post_1" "user_1" 1)).
Defined.

(** * Votes that come before the post *)

Lemma create_post_votes (e : env) (b : post_body) (s : server) :
  votes (disk (state (create_post e b s))) = votes (disk s).
Proof.
  assert (U : forall uid nm d,
             votes (insert_or_ignore_user uid nm d) = votes d).
  { intros uid nm d. unfold insert_or_ignore_user.
    now destruct (existsb _ (users d)). }
  destruct (create_post_disk e b s) as [->|[->|H]]; auto.
  unfold insert_post in H. destruct (existsb _ (posts _)); [discriminate|].
  injection H as <-. simpl. apply U.
Qed.

(** Every row of [posts] is in the result of the list query, with the
    counts of its vote rows. *)
Lemma select_posts_has_row (d : database) (p : Posts.row) :
  In p (posts d) ->
  exists x,
    In x (select_posts d) /\ row_of x = p
    /\ Post.true_votes x = count_votes (votes d) (Posts.id p) 1
    /\ Post.false_votes x = count_votes (votes d) (Posts.id p) 0.
Proof.
  intros Hp.
  set (tv := count_votes (votes d) (Posts.id p) 1).
  set (fv := count_votes (votes d) (Posts.id p) 0).
  assert (N : exists x, In x (left_join_users (users d) p tv fv)).
  { unfold left_join_users.
    destruct (filter _ (users d)); eexists; now left. }
  destruct N as [x Hx]. exists x.
  split; [|now apply left_join_users_rows in Hx].
  unfold select_posts.
  apply (Permutation_in _ (order_by_created_at_desc_perm _)).
  apply in_flat_map. now exists p.
Qed.

Lemma created_post_has_zero_tallies_aux
  (e : env) (b : post_body) (s : server) :
  falsy (b_place_name b) = false ->
  exists x,
    reply (create_post e b s) = mkResponse 201 (JPost x)
    /\ Post.true_votes x = 0 /\ Post.false_votes x = 0.
Proof.
  intros H. pose proof (create_post_valid e b s H) as V. simpl in V.
  pose proof (try_db_first_row e b (snd (getDb e s)) (fst (getDb e s))) as R.
  destruct (snd (try_db_first e b (snd (getDb e s)) (fst (getDb e s))))
    as [newPost|].
  - destruct V as (_ & Hr & _). exists newPost.
    destruct (select_new_post_zero _ _ _ (R newPost eq_refl)) as [T F].
    auto.
  - destruct V as (_ & Hr & _). exists (memPost e b). auto.
Qed.

(** The vote handler does not ask whether the post exists, and the record
    of a 201 reply has the literal tallies 0 and 0: when votes were cast on
    an id before a post with that id is created, the reply to the creation
    says 0/0 while the next list shows the post with those earlier votes
    counted. *)
Theorem new_post_shows_earlier_votes
  (e e2 : env) (b : post_body) (s : server) (i : string) :
  uses_real e s = true -> healthy e -> throws e2 0%nat = false ->
  falsy (b_place_name b) = false ->
  b_id b = Some i ->
  existsb (fun p => sql_eq (Posts.id p) (b_id b)) (posts (disk s)) = false ->
  let r := create_post e b s in
  exists y x,
    reply r = mkResponse 201 (JPost y)
    /\ Post.true_votes y = 0 /\ Post.false_votes y = 0
    /\ In x (listed (reply (list_posts e2 (state r))))
    /\ row_of x = row_of y
    /\ Post.true_votes x = count_votes (votes (disk s)) (Some i) 1
    /\ Post.false_votes x = count_votes (votes (disk s)) (Some i) 0.
Proof.
  intros Hr Hh Ht Hb Hi Hfresh r.
  destruct (create_post_fresh_id e b s i Hr Hh Hb Hi Hfresh)
    as (y & Hrep & Hrow & Hp & _).
  fold r in Hrep, Hp.
  destruct (created_post_has_zero_tallies_aux e b s Hb)
    as (y' & Hrep' & T & F).
  fold r in Hrep'. rewrite Hrep in Hrep'. injection Hrep' as <-.
  destruct (select_posts_has_row (disk (state r)) (row_of y))
    as (x & Hx & Hxr & Hxt & Hxf).
  { rewrite Hp, Hrow. apply in_or_app. right. now left. }
  exists y, x. split; [exact Hrep|]. split; [exact T|]. split; [exact F|].
  destruct (list_posts_reply e2 (state r)) as (st & -> & _ & _ & Hst).
  rewrite Hst; [|apply uses_real_opened|exact Ht].
  - unfold listed. simpl. split; [apply in_or_app; now left|].
    split; [exact Hxr|].
    unfold r in Hxt, Hxf. rewrite create_post_votes in Hxt, Hxf.
    rewrite Hrow in Hxt, Hxf. simpl in Hxt, Hxf. rewrite Hi in Hxt, Hxf.
    auto.
  - unfold r. rewrite create_post_db. now rewrite (uses_real_handle e s Hr).
Qed.

Lemma new_post_shows_earlier_votes_witness :
  let s := state (cast_vote quiet (vote "post_1" "user_1" 1) (fresh false)) in
  let r := create_post quiet test_mosque s in
  exists y x,
    reply r = mkResponse 201 (JPost y)
    /\ Post.true_votes y = 0
    /\ In x (listed (reply (list_posts quiet (state r))))
    /\ row_of x = row_of y
    /\ Post.true_votes x = 1.
Proof.
  intros s r.
  destruct (new_post_shows_earlier_votes quiet quiet test_mosque s "post_1"
              eq_refl healthy_quiet eq_refl eq_refl eq_refl eq_refl)
    as (y & x & H1 & H2 & _ & H4 & H5 & H6 & _).
  exists y, x. auto.
Defined.
